(** * Sign-language model showdown: a shallow embedding of [app.py]

    The application is one Streamlit script.  Each interaction runs it from
    top to bottom: it loads the leaderboard file, loads (or reuses) the hidden
    test set, handles a possible submission and renders the leaderboard.

    The embedding follows the script:
    - Python strings are [string]s whose characters are the code points
      0..255;
    - the file system seen by the script is a [gmap string string] from paths
      to file contents;
    - exceptions are values of [result]; the script body is written in a
      small state-and-exception monad [M] over the [World];
    - the collaborators (os.listdir, PIL, Keras, the clock) are records of
      functions that the definitions take as arguments;
    - a float64 is given as the rational it holds: [Py.float64] rounds a
      rational to the nearest float64, and the float arithmetic of the script
      rounds after every operation; a float that holds a percentage of two
      decimals is given as the integer number of its hundredths. *)

From Stdlib Require Import ZArith QArith Qround Qabs Qpower.
From Stdlib Require Import List String Ascii Bool.
From Stdlib Require Import Lia Lqa.
From Stdlib Require Import Sorted Permutation DecimalString DecimalN.
From stdpp Require Import gmap strings list fin_maps.

Open Scope string_scope.
Open Scope list_scope.
Open Scope nat_scope.

(** ** Exceptions *)

Inductive result (A : Type) : Type :=
| Ok (a : A)
| Raise (e : string).
Arguments Ok {A} a.
Arguments Raise {A} e.

(** [o is not None] *)
Definition is_some {A} (o : option A) : bool :=
  match o with Some _ => true | None => false end.

(** ** Python built-ins used by the script *)

Module Py.

(** [str.isspace] on the code points below 256. *)
Definition is_space (c : ascii) : bool :=
  let n := nat_of_ascii c in
  (((9 <=? n) && (n <=? 13)) || ((28 <=? n) && (n <=? 32))
   || (n =? 133) || (n =? 160))%nat.

Fixpoint lstrip (s : string) : string :=
  match s with
  | String c s' => if is_space c then lstrip s' else s
  | EmptyString => EmptyString
  end.

(** Drops the trailing white space: a character is kept when it is not
    white space or when something is kept after it. *)
Fixpoint rstrip (s : string) : string :=
  match s with
  | EmptyString => EmptyString
  | String c s' =>
      match rstrip s' with
      | EmptyString => if is_space c then EmptyString else String c EmptyString
      | kept => String c kept
      end
  end.

(** [s.strip()] *)
Definition strip (s : string) : string := rstrip (lstrip s).

(** Truth value of a [str]: non-empty. *)
Definition truthy (s : string) : bool :=
  match s with EmptyString => false | String _ _ => true end.

(** [enumerate(l)] *)
Fixpoint enumerate_from {A} (i : nat) (l : list A) : list (nat * A) :=
  match l with
  | [] => []
  | x :: l' => (i, x) :: enumerate_from (S i) l'
  end.

Definition enumerate {A} (l : list A) : list (nat * A) := enumerate_from 0 l.

(** [sorted(l)] on strings: ascending in code-point order.  Insertion from
    the right keeps equal elements in their original order, as Python's
    stable sort does. *)
Fixpoint insert_sorted (x : string) (l : list string) : list string :=
  match l with
  | [] => [x]
  | y :: l' => if String.leb x y then x :: l else y :: insert_sorted x l'
  end.

Definition sorted (l : list string) : list string :=
  fold_right insert_sorted [] l.

(** [os.path.join(a, b)] for two components (POSIX). *)
Definition os_path_join (a b : string) : string :=
  match b with
  | String "/" _ => b
  | _ =>
      match a with
      | EmptyString => b
      | _ =>
          if String.eqb (substring (String.length a - 1) 1 a) "/"
          then a +:+ b
          else a +:+ "/" +:+ b
      end
  end.

(** Decimal numeral of a natural number. *)
Definition str_N (n : N) : string :=
  NilEmpty.string_of_uint (N.to_uint n).

(** Value of a decimal numeral (0 for a text that is not one). *)
Definition digits_value (s : string) : N :=
  match NilEmpty.uint_of_string s with
  | Some d => N.of_uint d
  | None => 0
  end.

Definition str_nat (n : nat) : string := str_N (N.of_nat n).

(** [%02d] *)
Definition pad2 (n : nat) : string :=
  if (n <? 10)%nat then "0" +:+ str_nat n else str_nat n.

(** [%Y] of a four-digit year *)
Definition pad4 (n : nat) : string :=
  if (n <? 100)%nat then "00" +:+ pad2 n
  else if (n <? 1000)%nat then "0" +:+ str_nat n else str_nat n.

(** [str.join] *)
Fixpoint join (sep : string) (l : list string) : string :=
  match l with
  | [] => EmptyString
  | [x] => x
  | x :: l' => x +:+ sep +:+ join sep l'
  end.

Fixpoint existsb_str (p : ascii -> bool) (s : string) : bool :=
  match s with
  | EmptyString => false
  | String c s' => p c || existsb_str p s'
  end.

Fixpoint forallb_str (p : ascii -> bool) (s : string) : bool :=
  match s with
  | EmptyString => true
  | String c s' => p c && forallb_str p s'
  end.

(** [x in l] for strings *)
Definition mem_str (x : string) (l : list string) : bool :=
  existsb (String.eqb x) l.

(** [c in s] for a character *)
Definition mem_char (c : ascii) (s : string) : bool :=
  existsb_str (Ascii.eqb c) s.

(** Rounding of a rational to the nearest integer, ties to the even one
    (the rule of [numpy.rint] and of the float64 significand). *)
Definition round_half_even (q : Q) : Z :=
  let f := Qfloor q in
  match Qcompare (q - inject_Z f) (1 # 2) with
  | Lt => f
  | Gt => (f + 1)%Z
  | Eq => if Z.even f then f else (f + 1)%Z
  end.

(** The binary exponent of a rational other than 0: the [t] with
    2^t <= |q| < 2^(t+1).  The difference of the bit lengths of numerator
    and denominator is [t] or [t + 1]. *)
Definition exponent (q : Q) : Z :=
  let t := (Z.log2 (Z.abs (Qnum q)) - Z.log2 (Z.pos (Qden q)))%Z in
  if Qle_bool (2 ^ t) (Qabs q) then t else (t - 1)%Z.

(** The float64 nearest to [q], ties to the even significand: [q] is scaled
    to a significand of 53 bits, rounded and scaled back; the result is
    given in lowest terms.  The range of the exponent is not bounded: the
    script computes with accuracies and percentages, far from overflow and
    from the subnormal numbers. *)
Definition float64 (q : Q) : Q :=
  if Qeq_bool q 0 then 0%Q
  else
    let e := (exponent q - 52)%Z in
    Qred (inject_Z (round_half_even (q * 2 ^ (- e))) * 2 ^ e).
Arguments float64 : simpl never.

(** [a * b] on float64: the exact product, rounded once. *)
Definition fmul (a b : Q) : Q := float64 (a * b).

(** [round(x, 2)] on a numpy float64: numpy multiplies by 100, rounds to
    the nearest integer and divides by 100.  The result is the float that
    holds that many hundredths; it is given as their number. *)
Definition round2 (x : Q) : Z := round_half_even (fmul x 100).

(** The decimals of [str(x)] for [fr] hundredths: one digit when the second
    is 0, else two. *)
Definition str_frac (fr : N) : string :=
  if (fr mod 10 =? 0)%N then str_N (fr / 10)
  else if (fr <? 10)%N then "0" +:+ str_N fr else str_N fr.

(** [str(x)] of a float that holds [h] hundredths: the shortest numeral
    that reads back as the same float, with at least one decimal. *)
Definition str_hundredths (h : Z) : string :=
  let a := Z.abs_N h in
  (if (h <? 0)%Z then "-" else EmptyString)
  +:+ str_N (a / 100) +:+ "." +:+ str_frac (a mod 100).

End Py.

(** ** Configuration *)

Definition TEST_IMAGE_DIR : string := "test_images".
Definition LEADERBOARD_FILE : string := "leaderboard.csv".
Definition CLASS_NAMES : list string := ["A"; "B"; "C"].

(** ** Images and arrays *)

(** A PIL image: its size, its number of bands and the picture it was decoded
    from.  [picture] names the pixel content; resampling is not computed. *)
Record PILImage : Type := mkImage {
  im_width : Z;
  im_height : Z;
  im_bands : Z;
  picture : nat
}.

(** [img.convert("RGB")] *)
Definition convert_RGB (img : PILImage) : PILImage :=
  mkImage (im_width img) (im_height img) 3 (picture img).

(** The largest C [int], the type in which PIL takes a size. *)
Definition INT_MAX : Z := 2147483647.

(** [img.resize(size)]: PIL reads [size] as (width, height), takes both as
    C integers and refuses sizes that are not positive.  Whether PIL finds
    the memory for an image of the size asked is outside the model: the
    statements below that need a resized image assume that [resize]
    returned one. *)
Definition resize (img : PILImage) (size : Z * Z) : result PILImage :=
  if ((fst size <=? INT_MAX) && (snd size <=? INT_MAX))%Z then
    if ((0 <? fst size) && (0 <? snd size))%Z
    then Ok (mkImage (fst size) (snd size) (im_bands img) (picture img))
    else Raise "height and width must be > 0"
  else Raise "OverflowError: Python int too large to convert to C int".

(** A numpy array of pixel values: its shape and the picture it holds. *)
Record NDArray : Type := mkArray {
  shape : list Z;
  content : nat
}.

(** [np.array(img) / 255.0]: rows first, so the shape is
    (height, width, bands). *)
Definition np_array (img : PILImage) : NDArray :=
  mkArray [im_height img; im_width img; im_bands img] (picture img).

(** ** The test-set loader *)

(** The directory tree of the hidden test set: [listdir folder] is
    [os.listdir] (any order, [None] when the folder cannot be listed) and
    [image_open path] is [Image.open] ([None] when the file cannot be
    decoded). *)
Record ImageStore : Type := mkStore {
  listdir : string -> option (list string);
  image_open : string -> option PILImage
}.

(** The inner loop: the files of one class folder, in the order given. *)
Fixpoint load_files (st : ImageStore) (folder : string) (idx : nat)
    (fnames : list string) (acc : list PILImage * list nat)
  : option (list PILImage * list nat) :=
  match fnames with
  | [] => Some acc
  | fname :: rest =>
      let fpath := Py.os_path_join folder fname in
      match image_open st fpath with
      | None => None
      | Some img =>
          load_files st folder idx rest
            (fst acc ++ [convert_RGB img], snd acc ++ [idx])
      end
  end.

(** The outer loop over [enumerate(CLASS_NAMES)]. *)
Fixpoint load_classes (st : ImageStore) (classes : list (nat * string))
    (acc : list PILImage * list nat) : option (list PILImage * list nat) :=
  match classes with
  | [] => Some acc
  | (idx, cls) :: rest =>
      let folder := Py.os_path_join TEST_IMAGE_DIR cls in
      match listdir st folder with
      | None => None
      | Some fnames =>
          match load_files st folder idx (Py.sorted fnames) acc with
          | None => None
          | Some acc' => load_classes st rest acc'
          end
      end
  end.

Definition load_raw_test_images (st : ImageStore)
  : option (list PILImage * list nat) :=
  load_classes st (Py.enumerate CLASS_NAMES) ([], []).

(** The files the loader opens, with the label each one receives, in the
    order of the visit: class folders in the order of [classes], file names
    of a folder in ascending order. *)
Definition visits (listing : string -> list string)
    (classes : list (nat * string)) : list (string * nat) :=
  flat_map
    (fun ic =>
       let folder := Py.os_path_join TEST_IMAGE_DIR (snd ic) in
       map (fun fname => (Py.os_path_join folder fname, fst ic))
         (Py.sorted (listing folder)))
    classes.

(** ** The model evaluator *)

(** A loaded Keras model: the declared input shape ([None] for a dimension
    left open) and batched inference, which yields one row of class scores
    per sample or raises. *)
Record Model : Type := mkModel {
  input_shape : list (option Z);
  predict : list NDArray -> result (list (list Q))
}.

Definition bind_result {A B} (r : result A) (k : A -> result B) : result B :=
  match r with
  | Ok a => k a
  | Raise e => Raise e
  end.

Notation "'try!' x ':=' e 'in' k" := (bind_result e (fun x => k))
  (at level 10, x pattern, e at level 100, k at level 200).

(** [img.resize(input_size)] with the tuple the handler built: PIL needs two
    integers. *)
Definition resize_to (img : PILImage) (input_size : option Z * option Z)
  : result PILImage :=
  match input_size with
  | (Some a, Some b) => resize img (a, b)
  | _ => Raise "TypeError: an integer is required"
  end.

(** The list comprehension
    [[np.array(img.resize(input_size)) / 255.0 for img in pil_images]]. *)
Fixpoint resized_imgs (pil_images : list PILImage)
    (input_size : option Z * option Z) : result (list NDArray) :=
  match pil_images with
  | [] => Ok []
  | img :: rest =>
      try! r := resize_to img input_size in
      try! rs := resized_imgs rest input_size in
      Ok (np_array r :: rs)
  end.

Definition shape_eqb (a b : list Z) : bool :=
  bool_decide (a = b).

(** [np.stack]: at least one array, all of one shape. *)
Definition np_stack (arrays : list NDArray) : result (list NDArray) :=
  match arrays with
  | [] => Raise "need at least one array to stack"
  | a :: rest =>
      if forallb (fun b => shape_eqb (shape b) (shape a)) rest
      then Ok arrays
      else Raise "all input arrays must have the same shape"
  end.

(** Index of the first largest score, scanning from position [i]. *)
Fixpoint argmax_from (best : Q) (besti i : nat) (l : list Q) : nat :=
  match l with
  | [] => besti
  | x :: l' =>
      if Qle_bool x best
      then argmax_from best besti (S i) l'
      else argmax_from x i (S i) l'
  end.

Definition argmax (row : list Q) : result nat :=
  match row with
  | [] => Raise "attempt to get argmax of an empty sequence"
  | x :: l => Ok (argmax_from x 0 1 l)
  end.

(** [np.argmax(preds, axis=1)] *)
Fixpoint np_argmax (preds : list (list Q)) : result (list nat) :=
  match preds with
  | [] => Ok []
  | row :: rest =>
      try! i := argmax row in
      try! ixs := np_argmax rest in
      Ok (i :: ixs)
  end.

(** [y_pred == y], element by element; arrays of different lengths do not
    compare (Keras returns one row per sample, so the one-element broadcast
    of numpy is left out). *)
Fixpoint np_equal (y_pred y : list nat) : result (list bool) :=
  match y_pred, y with
  | [], [] => Ok []
  | p :: ps, t :: ts =>
      try! bs := np_equal ps ts in
      Ok ((p =? t) :: bs)
  | _, _ => Raise "operands could not be broadcast together"
  end.

Definition count_true (bs : list bool) : nat :=
  List.length (List.filter (fun b => b) bs).

(** [.mean()] of a boolean array: the number of [True], counted in float64
    without error, divided by the length; the quotient is rounded to
    float64.  (The mean of an empty array, which numpy gives as nan, does
    not occur: [np.stack] leaves no empty batch and Keras returns one row
    per sample.) *)
Definition np_mean (bs : list bool) : Q :=
  Py.float64 (Z.of_nat (count_true bs) # Pos.of_nat (List.length bs)).

Definition evaluate_model (model : Model) (pil_images : list PILImage)
    (y : list nat) (input_size : option Z * option Z) : result Q :=
  try! imgs := resized_imgs pil_images input_size in
  try! x := np_stack imgs in
  try! preds := predict model x in
  try! y_pred := np_argmax preds in
  try! hits := np_equal y_pred y in
  Ok (np_mean hits).

(** ** The leaderboard table *)

(** A cell of the table: text, a number (given in hundredths) or the
    missing value. *)
Inductive cell : Type :=
| Str (s : string)
| Num (h : Z)
| NaN.

Record Row : Type := mkRow {
  Username : cell;
  Accuracy : cell;
  Timestamp : cell
}.

(** The data frame with the columns Username, Accuracy, Timestamp. *)
Definition DataFrame : Type := list Row.

Global Instance cell_eq_dec : EqDecision cell.
Proof. solve_decision. Defined.

Global Instance Row_eq_dec : EqDecision Row.
Proof. solve_decision. Defined.

Definition COLUMNS : list string := ["Username"; "Accuracy"; "Timestamp"].

(** ** CSV text *)

Module Csv.

Definition COMMA : ascii := ","%char.
Definition DQUOTE : ascii := "034"%char.
Definition LF : ascii := "010"%char.
Definition CR : ascii := "013"%char.
Definition TAB : ascii := "009"%char.

Definition is_terminator (c : ascii) : bool :=
  Ascii.eqb c LF || Ascii.eqb c CR.

Definition is_blank (c : ascii) : bool :=
  Ascii.eqb c " "%char || Ascii.eqb c TAB.

(** *** Writing ([DataFrame.to_csv(path, index=False)]) *)

(** Minimal quoting, as the [csv] writer that pandas drives does it with
    the line terminator LF: a field is quoted when it holds the separator,
    the quote character or a character of the line terminator.  A carriage
    return alone does not make this writer quote (the writers of Python
    3.13 and later quote it as well). *)
Definition needs_quoting (s : string) : bool :=
  Py.existsb_str
    (fun c => Ascii.eqb c COMMA || Ascii.eqb c DQUOTE || Ascii.eqb c LF) s.

Fixpoint double_quotes (s : string) : string :=
  match s with
  | EmptyString => EmptyString
  | String c s' =>
      if Ascii.eqb c DQUOTE
      then String DQUOTE (String DQUOTE (double_quotes s'))
      else String c (double_quotes s')
  end.

Definition write_field (s : string) : string :=
  if needs_quoting s
  then String DQUOTE (double_quotes s +:+ String DQUOTE EmptyString)
  else s.

(** A number is written as [str] gives it, the missing value as nothing. *)
Definition write_cell (c : cell) : string :=
  match c with
  | Str s => write_field s
  | Num h => Py.str_hundredths h
  | NaN => EmptyString
  end.

Definition write_line (fields : list string) : string :=
  Py.join (String COMMA EmptyString) fields +:+ String LF EmptyString.

Definition write_row (r : Row) : string :=
  write_line [write_cell (Username r); write_cell (Accuracy r);
              write_cell (Timestamp r)].

Fixpoint write_rows (df : DataFrame) : string :=
  match df with
  | [] => EmptyString
  | r :: df' => write_row r +:+ write_rows df'
  end.

Definition to_csv (df : DataFrame) : string :=
  write_line (map write_field COLUMNS) +:+ write_rows df.

(** *** Reading ([pd.read_csv(path)]) *)

(** The states of the tokenizer. *)
Inductive tok_state : Type :=
| START_RECORD
| WHITESPACE_LINE
| START_FIELD
| IN_FIELD
| IN_QUOTED_FIELD
| QUOTE_IN_QUOTED_FIELD.

(** What the tokenizer does with one character. *)
Inductive action : Type :=
| Skip (st : tok_state)   (* consume it *)
| Push (st : tok_state)   (* add it to the current field *)
| EndField                (* close the field *)
| EndLine                 (* close the field and the record *)
| DropLine.               (* an empty or blank line: forget it *)

Definition step_in_field (c : ascii) : action :=
  if is_terminator c then EndLine
  else if Ascii.eqb c COMMA then EndField
  else Push IN_FIELD.

Definition step_start_field (c : ascii) : action :=
  if is_terminator c then EndLine
  else if Ascii.eqb c DQUOTE then Skip IN_QUOTED_FIELD
  else if Ascii.eqb c COMMA then EndField
  else Push IN_FIELD.

Definition step (st : tok_state) (c : ascii) : action :=
  match st with
  | START_RECORD =>
      if is_terminator c then DropLine
      else if is_blank c then Push WHITESPACE_LINE
      else step_start_field c
  | WHITESPACE_LINE =>
      if is_terminator c then DropLine
      else if is_blank c then Push WHITESPACE_LINE
      else step_in_field c
  | START_FIELD => step_start_field c
  | IN_FIELD => step_in_field c
  | IN_QUOTED_FIELD =>
      if Ascii.eqb c DQUOTE then Skip QUOTE_IN_QUOTED_FIELD
      else Push IN_QUOTED_FIELD
  | QUOTE_IN_QUOTED_FIELD =>
      if Ascii.eqb c DQUOTE then Push IN_QUOTED_FIELD
      else step_in_field c
  end.

Definition close_field (field : list ascii) : string :=
  string_of_list_ascii (rev field).

(** [field] holds the characters of the current field, last one first;
    [record] the closed fields of the current record, last one first.
    [None]: the text ends inside a quoted field. *)
Fixpoint tokenize (st : tok_state) (field : list ascii)
    (record : list string) (s : string) : option (list (list string)) :=
  match s with
  | EmptyString =>
      match st with
      | START_RECORD | WHITESPACE_LINE => Some []
      | IN_QUOTED_FIELD => None
      | START_FIELD | IN_FIELD | QUOTE_IN_QUOTED_FIELD =>
          Some [rev (close_field field :: record)]
      end
  | String c s' =>
      match step st c with
      | Skip st' => tokenize st' field record s'
      | Push st' => tokenize st' (c :: field) record s'
      | EndField => tokenize START_FIELD [] (close_field field :: record) s'
      | EndLine =>
          match tokenize START_RECORD [] [] s' with
          | Some rows => Some (rev (close_field field :: record) :: rows)
          | None => None
          end
      | DropLine => tokenize START_RECORD [] [] s'
      end
  end.

(** The tokens read as the missing value (pandas' default list). *)
Definition NA_VALUES : list string :=
  [EmptyString; "#N/A"; "#N/A N/A"; "#NA"; "-1.#IND"; "-1.#QNAN"; "-NaN";
   "-nan"; "1.#IND"; "1.#QNAN"; "<NA>"; "N/A"; "NA"; "NULL"; "NaN"; "None";
   "n/a"; "nan"; "null"].

Definition is_na (tok : string) : bool := Py.mem_str tok NA_VALUES.

(** Splits at the first dot. *)
Fixpoint split_dot (s : string) : option (string * string) :=
  match s with
  | EmptyString => None
  | String c s' =>
      if Ascii.eqb c "."%char then Some (EmptyString, s')
      else
        match split_dot s' with
        | Some (a, b) => Some (String c a, b)
        | None => None
        end
  end.

(** The hundredths that one or two decimals stand for. *)
Definition frac_value (fp : string) : N :=
  if String.length fp =? 1 then (Py.digits_value fp * 10)%N
  else Py.digits_value fp.

(** A token that is exactly the numeral [str] gives to a float holding a
    whole number of hundredths below 10^15; the hundredths. *)
Definition parse_hundredths (tok : string) : option Z :=
  match split_dot tok with
  | Some (ip, fp) =>
      let h := Z.of_N (Py.digits_value ip * 100 + frac_value fp) in
      if String.eqb (Py.str_hundredths h) tok && (h <? 10 ^ 15)%Z
      then Some h
      else None
  | None => None
  end.

Definition BOOL_VALUES : list string :=
  ["True"; "TRUE"; "true"; "False"; "FALSE"; "false"].

(** The characters a number may be spelt with, taken generously. *)
Definition NUMERIC_CHARS : string :=
  String TAB "0123456789+-. eEiInNfFtTyYaAjJxX".

(** A token pandas cannot take for a number or a truth value. *)
Definition plain_text (tok : string) : bool :=
  negb (Py.mem_str tok BOOL_VALUES)
  && Py.existsb_str (fun c => negb (Py.mem_char c NUMERIC_CHARS)) tok.

(** Type inference on one column: missing values apart, a column of
    numerals becomes numbers (no token of [NA_VALUES] is a numeral), a
    column with a token that is plainly text stays text.  [None] on the
    columns this model leaves out (numerals in another spelling, truth
    values). *)
Definition infer_column (toks : list string) : option (list cell) :=
  let present := List.filter (fun t => negb (is_na t)) toks in
  if forallb (fun t => is_some (parse_hundredths t)) present then
    Some (map (fun t =>
                 match parse_hundredths t with
                 | Some h => Num h
                 | None => NaN
                 end) toks)
  else if existsb plain_text present then
    Some (map (fun t => if is_na t then NaN else Str t) toks)
  else None.

(** The three columns of the records; [None] when a record has not three
    fields. *)
Fixpoint columns3 (rows : list (list string))
  : option (list string * list string * list string) :=
  match rows with
  | [] => Some ([], [], [])
  | [u; a; t] :: rest =>
      match columns3 rest with
      | Some (us, accs, ts) => Some (u :: us, a :: accs, t :: ts)
      | None => None
      end
  | _ :: _ => None
  end.

Fixpoint zip_rows (us accs ts : list cell) : DataFrame :=
  match us, accs, ts with
  | u :: us', a :: accs', t :: ts' => mkRow u a t :: zip_rows us' accs' ts'
  | _, _, _ => []
  end.

(** [None]: pandas raises, or the content is outside the model (another
    header, a record without three fields, a column left out by
    [infer_column]). *)
Definition read_csv (content : string) : option DataFrame :=
  match tokenize START_RECORD [] [] content with
  | Some (header :: rows) =>
      if bool_decide (header = COLUMNS) then
        match columns3 rows with
        | Some (us, accs, ts) =>
            match infer_column us, infer_column accs, infer_column ts with
            | Some cu, Some ca, Some ct => Some (zip_rows cu ca ct)
            | _, _, _ => None
            end
        | None => None
        end
      else None
  | _ => None
  end.

End Csv.

(** ** The world of one script run *)

(** What the page shows to the user through [st.warning], [st.error] and
    [st.success]; each constructor stands for one message of the script. *)
Inductive Notice : Type :=
| MissingFile                              (* warning: upload a model file *)
| MissingUsername                          (* warning: enter a username *)
| CouldNotLoad (e : string)                (* error: could not load the file *)
| NotSupported (shp : list (option Z))     (* error: input shape not supported *)
| ConcreteDims                             (* error: dimensions must be concrete *)
| CouldNotRun (e : string)                 (* error: could not run on the test set *)
| Evaluated (acc : Q).                     (* success: evaluated and recorded *)

(** The file system, the messages shown so far and the number of calls of
    [save_leaderboard] and of [evaluate_model].  Reading and writing files
    succeed: faults of the storage are outside the model. *)
Record World : Type := mkWorld {
  files : gmap string string;
  notices : list Notice;
  saves : nat;
  evaluations : nat
}.

(** Computations of the script: they change the world and return a value
    or raise. *)
Definition M (A : Type) : Type := World -> World * result A.

Definition ret {A} (a : A) : M A := fun w => (w, Ok a).

Definition raise {A} (e : string) : M A := fun w => (w, Raise e).

Definition bind {A B} (m : M A) (k : A -> M B) : M B :=
  fun w =>
    match m w with
    | (w', Ok a) => k a w'
    | (w', Raise e) => (w', Raise e)
    end.

Notation "'let!' x ':=' e 'in' k" := (bind e (fun x => k))
  (at level 10, x pattern, e at level 100, k at level 200).

(** [try: body except Exception as e: handler(e)]: what the body did before
    it raised stays done. *)
Definition try_except {A} (body : M A) (handler : string -> M A) : M A :=
  fun w =>
    match body w with
    | (w', Ok a) => (w', Ok a)
    | (w', Raise e) => handler e w'
    end.

Definition st_notice (n : Notice) : M unit :=
  fun w => (mkWorld (files w) (notices w ++ [n]) (saves w) (evaluations w), Ok tt).

Definition os_path_exists (path : string) : M bool :=
  fun w => (w, Ok (bool_decide (is_Some (files w !! path)))).

Definition write_file (path content : string) : M unit :=
  fun w =>
    (mkWorld (<[path := content]> (files w)) (notices w) (saves w)
       (evaluations w), Ok tt).

Definition unlink (path : string) : M unit :=
  fun w =>
    (mkWorld (delete path (files w)) (notices w) (saves w) (evaluations w),
     Ok tt).

(** [with tempfile.NamedTemporaryFile(delete=True) as tmpf: body]: the file
    is created empty under its name, and removed when the block is left,
    with a value or with an exception. *)
Definition with_NamedTemporaryFile {A} (name : string) (body : string -> M A)
  : M A :=
  fun w =>
    let (w1, _) := write_file name EmptyString w in
    let (w2, r) := body name w1 in
    let (w3, _) := unlink name w2 in
    (w3, r).

(** ** The leaderboard store *)

(** [load_leaderboard()].  [Csv.read_csv] covers the files that the
    application writes for the tables of the statements below.  On a
    content that it leaves out the run is stopped here, as it is when
    pandas raises: what the script does after it has read such a file is
    outside the model. *)
Definition load_leaderboard : M DataFrame :=
  let! present := os_path_exists LEADERBOARD_FILE in
  if (present : bool) then
    fun w =>
      match files w !! LEADERBOARD_FILE with
      | Some content =>
          match Csv.read_csv content with
          | Some df => (w, Ok df)
          | None => (w, Raise "ParserError")
          end
      | None => (w, Raise "FileNotFoundError")
      end
  else ret [].

Definition save_leaderboard (df : DataFrame) : M unit :=
  fun w =>
    write_file LEADERBOARD_FILE (Csv.to_csv df)
      (mkWorld (files w) (notices w) (S (saves w)) (evaluations w)).

(** ** The submission handler *)

Record datetime : Type := mkDatetime {
  year : nat; month : nat; day : nat;
  hour : nat; minute : nat; second : nat
}.

(** [strftime("%Y-%m-%d %H:%M:%S")] *)
Definition strftime (d : datetime) : string :=
  Py.pad4 (year d) +:+ "-" +:+ Py.pad2 (month d) +:+ "-" +:+ Py.pad2 (day d)
  +:+ " " +:+ Py.pad2 (hour d) +:+ ":" +:+ Py.pad2 (minute d)
  +:+ ":" +:+ Py.pad2 (second d).

(** The collaborators of one run: the test-image tree, Keras' loader (from
    the bytes of a file to a model), the clock and the name the temporary
    file receives. *)
Record Env : Type := mkEnv {
  store : ImageStore;
  keras_load : string -> result Model;
  now : datetime;
  tmpname : string
}.

(** The widgets of the page: the text field, the uploader ([None]: nothing
    attached) and the button. *)
Record Submission : Type := mkSubmission {
  username : string;
  uploaded_file : option string;
  submit : bool
}.

(** [tf.keras.models.load_model(path)] *)
Definition load_model (env : Env) (path : string) : M Model :=
  fun w =>
    match files w !! path with
    | Some bytes => (w, keras_load env bytes)
    | None => (w, Raise "No such file")
    end.

(** [evaluate_model] as a step of the script: the call is counted. *)
Definition run_evaluate_model (model : Model) (pil_images : list PILImage)
    (y : list nat) (input_size : option Z * option Z) : M Q :=
  fun w =>
    (mkWorld (files w) (notices w) (saves w) (S (evaluations w)),
     evaluate_model model pil_images y input_size).

(** [input_shape[i]]; the caller has checked the length. *)
Definition dim (input_shape : list (option Z)) (i : nat) : option Z :=
  match input_shape !! i with
  | Some d => d
  | None => None
  end.

(** [len(input_shape) == 4 and input_shape[-1] == 3] *)
Definition accepts_rgb (input_shape : list (option Z)) : bool :=
  (List.length input_shape =? 4)
  && bool_decide (List.last input_shape None = Some 3%Z).

(** [None in input_size] *)
Definition has_None (input_size : option Z * option Z) : bool :=
  negb (is_some (fst input_size)) || negb (is_some (snd input_size)).

(** The dictionary [new_row] of the script; [acc * 100] is a product of
    floats. *)
Definition new_row (username : string) (acc : Q) (timestamp : string) : Row :=
  mkRow (Str username) (Num (Py.round2 (Py.fmul acc 100))) (Str timestamp).

(** The body of the inner [try]: evaluate, build the row, append, save. *)
Definition record_result (env : Env) (sub : Submission) (model : Model)
    (input_size : option Z * option Z) (leaderboard : DataFrame)
    (raw_images : list PILImage) (y_test : list nat) : M DataFrame :=
  let! acc := run_evaluate_model model raw_images y_test input_size in
  let timestamp := strftime (now env) in
  let leaderboard := leaderboard ++ [new_row (username sub) acc timestamp] in
  let! _ := save_leaderboard leaderboard in
  let! _ := st_notice (Evaluated acc) in
  ret leaderboard.

(** The body of the outer [try]. *)
Definition check_and_evaluate (env : Env) (sub : Submission) (tmpf : string)
    (leaderboard : DataFrame) (raw_images : list PILImage)
    (y_test : list nat) : M DataFrame :=
  let! model := load_model env tmpf in
  let input_shape := input_shape model in
  if accepts_rgb input_shape then
    let input_size := (dim input_shape 1, dim input_shape 2) in
    let! model :=
      (if has_None input_size
       then let! _ := st_notice ConcreteDims in ret None
       else ret (Some model)) in
    match model with
    | Some model =>
        try_except
          (record_result env sub model input_size leaderboard raw_images
             y_test)
          (fun e => let! _ := st_notice (CouldNotRun e) in ret leaderboard)
    | None => ret leaderboard
    end
  else
    let! _ := st_notice (NotSupported input_shape) in
    ret leaderboard.

(** The [if / elif / elif] after the widgets; the value is the leaderboard
    variable afterwards. *)
Definition handle_submission (env : Env) (sub : Submission)
    (leaderboard : DataFrame) (raw_images : list PILImage)
    (y_test : list nat) : M DataFrame :=
  let has_file := is_some (uploaded_file sub) in
  let has_name := Py.truthy (Py.strip (username sub)) in
  if submit sub && has_file && has_name then
    match uploaded_file sub with
    | Some upload =>
        with_NamedTemporaryFile (tmpname env) (fun tmpf =>
          (* tmpf.write(uploaded_file.read()); tmpf.flush() *)
          let! _ := write_file tmpf upload in
          try_except
            (check_and_evaluate env sub tmpf leaderboard raw_images y_test)
            (fun e => let! _ := st_notice (CouldNotLoad e) in ret leaderboard))
    | None => ret leaderboard
    end
  else if submit sub && negb has_file then
    let! _ := st_notice MissingFile in ret leaderboard
  else if submit sub && negb has_name then
    let! _ := st_notice MissingUsername in ret leaderboard
  else ret leaderboard.

(** ** The leaderboard on the page *)

(** A row of the displayed table: the Accuracy column holds text. *)
Record DisplayRow : Type := mkDisplayRow {
  dUsername : cell;
  dAccuracy : string;
  dTimestamp : cell
}.

(** [.astype(str)] on one value. *)
Definition astype_str (c : cell) : string :=
  match c with
  | Str s => s
  | Num h => Py.str_hundredths h
  | NaN => "nan"
  end.

(** The copy whose Accuracy column is [astype(str) + " %"]. *)
Definition leaderboard_display (leaderboard : DataFrame) : list DisplayRow :=
  map (fun r =>
         mkDisplayRow (Username r) (astype_str (Accuracy r) +:+ " %")
           (Timestamp r))
    leaderboard.

(** [sort_values("Accuracy", ascending=False)] on the displayed copy: the
    keys are the texts of the Accuracy column, compared as Python compares
    [str] values.  Rows with the same key keep their order here; pandas
    promises no order among them. *)
Fixpoint insert_desc (x : DisplayRow) (l : list DisplayRow)
  : list DisplayRow :=
  match l with
  | [] => [x]
  | y :: l' =>
      if String.leb (dAccuracy y) (dAccuracy x)
      then x :: l
      else y :: insert_desc x l'
  end.

Definition sort_values_desc (rows : list DisplayRow) : list DisplayRow :=
  fold_right insert_desc [] rows.

Inductive Shown : Type :=
| NoSubmissionsYet
| Table (rows : list DisplayRow).

Definition render (leaderboard : DataFrame) : Shown :=
  match leaderboard with
  | [] => NoSubmissionsYet
  | _ => Table (sort_values_desc (leaderboard_display leaderboard))
  end.

(** ** One run of the script *)

Definition run (env : Env) (sub : Submission) : M Shown :=
  let! leaderboard := load_leaderboard in
  let! test_set :=
    (match load_raw_test_images (store env) with
     | Some r => ret r
     | None => raise "the test set could not be loaded"
     end) in
  let raw_images := fst test_set in
  let y_test := snd test_set in
  let! leaderboard :=
    handle_submission env sub leaderboard raw_images y_test in
  ret (render leaderboard).

(** ** A small installation, used to run the script on concrete inputs *)

Module Demo.

(** Three readable pictures, one per class folder. *)
Definition demo_listdir (folder : string) : option (list string) :=
  if String.eqb folder "test_images/A" then Some ["a.png"]
  else if String.eqb folder "test_images/B" then Some ["b.png"]
  else if String.eqb folder "test_images/C" then Some ["c.png"]
  else None.

(** The picture of a file is numbered by the letter of its folder. *)
Definition demo_open (path : string) : option PILImage :=
  match String.get 12 path with
  | Some c => Some (mkImage 640 480 1 (nat_of_ascii c - 65))
  | None => None
  end.

Definition demo_store : ImageStore := mkStore demo_listdir demo_open.

(** Keras inference of a model with input (None, h, w, 3) that gives every
    sample the same scores: a batch of another geometry is refused. *)
Definition fixed_scores (h w : Z) (scores : list Q) (x : list NDArray)
  : result (list (list Q)) :=
  if forallb (fun a => shape_eqb (shape a) [h; w; 3%Z]) x
  then Ok (map (fun _ => scores) x)
  else Raise "incompatible input shape".

Definition constant_model (shp : list (option Z)) (h w : Z)
    (scores : list Q) : Model :=
  mkModel shp (fixed_scores h w scores).

Definition always_A : list Q := [9 # 10; 1 # 20; 1 # 20]%Q.

(** A model with input (None, 64, 64, 3) that recognises every picture. *)
Definition one_hot (k : nat) : list Q :=
  map (fun i => if i =? k then 1%Q else 0%Q) [0; 1; 2].

Definition perfect_model : Model :=
  mkModel [None; Some 64; Some 64; Some 3]%Z
    (fun x =>
       if forallb (fun a => shape_eqb (shape a) [64; 64; 3]%Z) x
       then Ok (map (fun a => one_hot (content a)) x)
       else Raise "incompatible input shape").

(** What Keras makes of the uploaded bytes. *)
Definition demo_keras (bytes : string) : result Model :=
  if String.eqb bytes "perfect" then Ok perfect_model
  else if String.eqb bytes "square"
  then Ok (constant_model [None; Some 64; Some 64; Some 3]%Z 64 64 always_A)
  else if String.eqb bytes "wide"
  then Ok (constant_model [None; Some 64; Some 128; Some 3]%Z 64 128 always_A)
  else if String.eqb bytes "gray"
  then Ok (constant_model [None; Some 64; Some 64; Some 1]%Z 64 64 always_A)
  else if String.eqb bytes "open"
  then Ok (constant_model [None; None; None; Some 3]%Z 64 64 always_A)
  else Raise "file signature not found".

Definition demo_env : Env :=
  mkEnv demo_store demo_keras (mkDatetime 2024 5 17 9 30 0)
    "/tmp/tmpk3x9.keras".

Definition empty_world : World := mkWorld ∅ [] 0 0.

Definition world_with (content : string) : World :=
  mkWorld {[ LEADERBOARD_FILE := content ]} [] 0 0.

Definition T1 : string := "2024-05-16 18:00:00".

Definition raw_images : list PILImage :=
  [mkImage 640 480 3 0; mkImage 640 480 3 1; mkImage 640 480 3 2].

Definition y_test : list nat := [0; 1; 2].

Definition wide_model : Model :=
  constant_model [None; Some 64; Some 128; Some 3]%Z 64 128 always_A.

Definition bob_row : Row := mkRow (Str "bob") (Num 9950) (Str T1).


End Demo.

(** ** Vocabulary of the statements *)

(** Ascending order on file names, as [sorted] compares them. *)
Definition name_le (a b : string) : Prop := String.leb a b = true.

(** What [os.listdir] gives for a folder ([[]] for one it cannot list). *)
Definition listing (st : ImageStore) (folder : string) : list string :=
  default [] (listdir st folder).

(** [img] is the RGB conversion of the image decoded from the visited
    file. *)
Definition decoded (st : ImageStore) (v : string * nat) (img : PILImage)
  : Prop :=
  exists raw, image_open st (fst v) = Some raw /\ img = convert_RGB raw.

(** [i] is the position of the first largest score of [row]. *)
Definition is_first_max (row : list Q) (i : nat) : Prop :=
  exists q,
    row !! i = Some q
    /\ (forall j x, row !! j = Some x -> (x <= q)%Q)
    /\ (forall j x, j < i -> row !! j = Some x -> (x < q)%Q).

(** The largest relative error of one rounding to float64: 2^-53. *)
Definition float64_eps : Q := 1 # 9007199254740992.

(** The number of positions at which prediction and label agree. *)
Fixpoint correct_count (y_pred y : list nat) : nat :=
  match y_pred, y with
  | p :: ps, t :: ts =>
      (if Nat.eq_dec p t then 1 else 0) + correct_count ps ts
  | _, _ => 0
  end.

(** The shape check of the handler passes and leaves two concrete
    dimensions. *)
Definition shape_accepted (shp : list (option Z)) : Prop :=
  accepts_rgb shp = true /\ has_None (dim shp 1, dim shp 2) = false.

(** The condition under which the claim C4 expects a rejection. *)
Definition shape_unsupported (shp : list (option Z)) : Prop :=
  List.length shp <> 4
  \/ List.last shp None <> Some 3%Z
  \/ shp !! 1 = Some None
  \/ shp !! 2 = Some None.

(** The two messages of the taxonomy's UnsupportedShape. *)
Definition is_UnsupportedShape (n : Notice) : bool :=
  match n with
  | NotSupported _ | ConcreteDims => true
  | _ => false
  end.

(** Every message but the one of success reports a failure. *)
Definition is_failure (n : Notice) : bool :=
  match n with
  | Evaluated _ => false
  | _ => true
  end.

(** The world after one more message. *)
Definition noted (w : World) (n : Notice) : World :=
  mkWorld (files w) (notices w ++ [n]) (saves w) (evaluations w).

(** The geometry the handler extracts from a declared shape. *)
Definition input_size_of (model : Model) : option Z * option Z :=
  (dim (input_shape model) 1, dim (input_shape model) 2).

(** The ways one pass through the handler can end: the world and the value
    of the leaderboard variable afterwards. *)
Inductive outcome (env : Env) (sub : Submission) (lb : DataFrame)
    (raw : list PILImage) (y : list nat) (w : World)
  : World -> result DataFrame -> Prop :=
| out_idle :
    submit sub = false ->
    outcome env sub lb raw y w w (Ok lb)
| out_missing_file :
    submit sub = true -> uploaded_file sub = None ->
    outcome env sub lb raw y w (noted w MissingFile) (Ok lb)
| out_missing_username upload :
    submit sub = true -> uploaded_file sub = Some upload ->
    Py.strip (username sub) = EmptyString ->
    outcome env sub lb raw y w (noted w MissingUsername) (Ok lb)
| out_could_not_load upload e :
    submit sub = true -> uploaded_file sub = Some upload ->
    Py.strip (username sub) <> EmptyString ->
    keras_load env upload = Raise e ->
    outcome env sub lb raw y w
      (mkWorld (delete (tmpname env) (files w))
         (notices w ++ [CouldNotLoad e]) (saves w) (evaluations w))
      (Ok lb)
| out_not_supported upload model :
    submit sub = true -> uploaded_file sub = Some upload ->
    Py.strip (username sub) <> EmptyString ->
    keras_load env upload = Ok model ->
    accepts_rgb (input_shape model) = false ->
    outcome env sub lb raw y w
      (mkWorld (delete (tmpname env) (files w))
         (notices w ++ [NotSupported (input_shape model)]) (saves w)
         (evaluations w))
      (Ok lb)
| out_concrete_dims upload model :
    submit sub = true -> uploaded_file sub = Some upload ->
    Py.strip (username sub) <> EmptyString ->
    keras_load env upload = Ok model ->
    accepts_rgb (input_shape model) = true ->
    has_None (input_size_of model) = true ->
    outcome env sub lb raw y w
      (mkWorld (delete (tmpname env) (files w))
         (notices w ++ [ConcreteDims]) (saves w) (evaluations w))
      (Ok lb)
| out_could_not_run upload model e :
    submit sub = true -> uploaded_file sub = Some upload ->
    Py.strip (username sub) <> EmptyString ->
    keras_load env upload = Ok model ->
    shape_accepted (input_shape model) ->
    evaluate_model model raw y (input_size_of model) = Raise e ->
    outcome env sub lb raw y w
      (mkWorld (delete (tmpname env) (files w))
         (notices w ++ [CouldNotRun e]) (saves w) (S (evaluations w)))
      (Ok lb)
| out_recorded upload model acc :
    submit sub = true -> uploaded_file sub = Some upload ->
    Py.strip (username sub) <> EmptyString ->
    keras_load env upload = Ok model ->
    shape_accepted (input_shape model) ->
    evaluate_model model raw y (input_size_of model) = Ok acc ->
    let lb' := lb ++ [new_row (username sub) acc (strftime (now env))] in
    outcome env sub lb raw y w
      (mkWorld
         (delete (tmpname env)
            (<[LEADERBOARD_FILE := Csv.to_csv lb']>
               (<[tmpname env := upload]> (files w))))
         (notices w ++ [Evaluated acc]) (S (saves w)) (S (evaluations w)))
      (Ok lb').

(** A character that the tokenizer adds to a field outside quotes. *)
Definition ordinary (c : ascii) : bool :=
  negb (Ascii.eqb c Csv.COMMA || Ascii.eqb c Csv.DQUOTE || Csv.is_terminator c).

(** The text a cell is written as. *)
Definition cell_text (c : cell) : string :=
  match c with
  | Str s => s
  | Num h => Py.str_hundredths h
  | NaN => EmptyString
  end.

(** The three fields of the record of a row. *)
Definition row_tokens (r : Row) : list string :=
  [cell_text (Username r); cell_text (Accuracy r); cell_text (Timestamp r)].

(** The text holds no carriage return. *)
Definition no_CR (s : string) : Prop :=
  Py.existsb_str (fun c => Ascii.eqb c Csv.CR) s = false.

(** A text that is read back as itself: not a token of the missing value,
    plainly not a number or a truth value, and without a carriage return
    (which the writer may leave outside quotes, where the reader ends the
    record). *)
Definition text_ok (s : string) : Prop :=
  Csv.is_na s = false /\ Csv.plain_text s = true /\ no_CR s.


(** A row as the handler appends them, with texts that are read back as
    themselves. *)
Definition row_ok (r : Row) : Prop :=
  exists u h t,
    r = mkRow (Str u) (Num h) (Str t)
    /\ text_ok u /\ (0 <= h < 10 ^ 15)%Z /\ text_ok t.

(** The states of the tokenizer outside a quoted field. *)
Definition scanning (st : Csv.tok_state) : Prop :=
  st = Csv.START_RECORD \/ st = Csv.WHITESPACE_LINE
  \/ st = Csv.START_FIELD \/ st = Csv.IN_FIELD.

(** The states after the first field of a record has begun. *)
Definition in_record (st : Csv.tok_state) : Prop :=
  st = Csv.START_FIELD \/ st = Csv.IN_FIELD.

(** A decimal digit. *)
Definition is_digit (c : ascii) : bool :=
  (48 <=? nat_of_ascii c) && (nat_of_ascii c <=? 57).

(** A character of the numerals [str] writes. *)
Definition numeral_char (c : ascii) : bool :=
  is_digit c || Ascii.eqb c "."%char || Ascii.eqb c "-"%char.

(** The decimals written for [fr] hundredths are digits and read back as
    [fr]. *)
Definition frac_ok (fr : N) : bool :=
  N.eqb (Csv.frac_value (Py.str_frac fr)) fr
  && Py.forallb_str is_digit (Py.str_frac fr).


(** Descending order on the displayed Accuracy texts. *)
Definition key_ge (a b : DisplayRow) : Prop :=
  String.leb (dAccuracy b) (dAccuracy a) = true.

(** ** Further vocabulary *)

(** The folder of a class. *)
Definition class_folder (cls : string) : string :=
  Py.os_path_join TEST_IMAGE_DIR cls.

(** Two image trees that differ at most in the order in which
    [os.listdir] gives the entries of a folder. *)
Definition same_tree (st st' : ImageStore) : Prop :=
  (forall path, image_open st path = image_open st' path)
  /\ forall folder,
       match listdir st folder, listdir st' folder with
       | Some l, Some l' => Permutation l l'
       | None, None => True
       | _, _ => False
       end.

(** A tree like the one of [Demo], whose folder A lists [names]. *)
Definition tree_with_A (names : list string) : ImageStore :=
  mkStore
    (fun folder =>
       if String.eqb folder "test_images/A" then Some names
       else Demo.demo_listdir folder)
    Demo.demo_open.

(** The text of the displayed Accuracy column for [h] hundredths. *)
Definition accuracy_key (h : Z) : string :=
  astype_str (Num h) +:+ " %".

(** The hundredths of the accuracy of a row (0 for a cell that is not a
    number). *)
Definition hundredths (r : Row) : Z :=
  match Accuracy r with
  | Num h => h
  | _ => 0%Z
  end.

(** Descending order on the accuracies as numbers. *)
Definition accuracy_ge (a b : Row) : Prop := (hundredths b <= hundredths a)%Z.

(** The displayed rows are the rows of the leaderboard in an order
    [ordered] that descends by their accuracies as numbers. *)
Definition shown_in_number_order (lb : DataFrame) (rows : list DisplayRow)
  : Prop :=
  exists ordered,
    rows = leaderboard_display ordered
    /\ Permutation lb ordered
    /\ Sorted accuracy_ge ordered.

(** Every accuracy of the table is a number of hundredths from [lo] up to,
    but not including, [hi]. *)
Definition accuracies_within (lo hi : Z) (lb : list Row) : Prop :=
  Forall (fun r => exists h, Accuracy r = Num h /\ (lo <= h < hi)%Z) lb.

(** The keys of [lo + i] and of its successor are in strictly ascending
    order, for every [i] below [k]. *)
Definition adjacent_keys_ascend (lo : Z) (k : nat) : bool :=
  forallb
    (fun i =>
       match String.compare (accuracy_key (lo + Z.of_nat i))
               (accuracy_key (lo + Z.of_nat i + 1)) with
       | Lt => true
       | _ => false
       end)
    (seq 0 k).

(** ** Properties of the built-ins *)

Lemma insert_sorted_perm x l : Permutation (x :: l) (Py.insert_sorted x l).
Proof.
  induction l as [|y l IH]; simpl; [reflexivity|].
  destruct (String.leb x y); [reflexivity|].
  rewrite <- IH. apply perm_swap.
Qed.

Lemma sorted_perm l : Permutation l (Py.sorted l).
Proof.
  induction l as [|x l IH]; simpl; [constructor|].
  rewrite <- insert_sorted_perm. now constructor.
Qed.

Lemma insert_sorted_hd x y l :
  name_le y x -> HdRel name_le y l -> HdRel name_le y (Py.insert_sorted x l).
Proof.
  intros Hyx Hl. destruct l as [|z l]; simpl.
  - now constructor.
  - destruct (String.leb x z); constructor; trivial.
    now inversion Hl.
Qed.

Lemma insert_sorted_Sorted x l :
  Sorted name_le l -> Sorted name_le (Py.insert_sorted x l).
Proof.
  induction 1 as [|y l Hs IH Hhd]; simpl.
  - repeat constructor.
  - destruct (String.leb x y) eqn:E.
    + constructor; [now constructor|]. now constructor.
    + constructor; [exact IH|].
      apply insert_sorted_hd; [|exact Hhd].
      destruct (String.leb_total x y) as [H|H]; [congruence|exact H].
Qed.

Lemma sorted_Sorted l : Sorted name_le (Py.sorted l).
Proof.
  induction l as [|x l IH]; simpl; [constructor|].
  now apply insert_sorted_Sorted.
Qed.

(** ** The test-set loader *)

Lemma load_files_spec st folder idx fnames acc acc' :
  load_files st folder idx fnames acc = Some acc' ->
  exists imgs,
    Forall2 (decoded st)
      (map (fun fname => (Py.os_path_join folder fname, idx)) fnames) imgs
    /\ acc' = (fst acc ++ imgs, snd acc ++ map (fun _ => idx) fnames).
Proof.
  revert acc. induction fnames as [|f fnames IH]; simpl; intros acc H.
  - inversion H; subst acc'. exists []. split; [constructor|].
    rewrite !app_nil_r. now destruct acc.
  - destruct (image_open st (Py.os_path_join folder f)) as [raw|] eqn:Hopen;
      [|discriminate].
    apply IH in H as (imgs & Himgs & ->). simpl.
    exists (convert_RGB raw :: imgs). split.
    + constructor; [|exact Himgs]. exists raw. now split.
    + now rewrite <- !app_assoc.
Qed.

Lemma load_classes_spec st classes acc acc' :
  load_classes st classes acc = Some acc' ->
  exists imgs,
    Forall2 (decoded st) (visits (listing st) classes) imgs
    /\ acc' = (fst acc ++ imgs, snd acc ++ map snd (visits (listing st) classes)).
Proof.
  revert acc. induction classes as [|[idx cls] classes IH]; simpl; intros acc H.
  - inversion H; subst acc'. exists []. split; [constructor|].
    rewrite !app_nil_r. now destruct acc.
  - unfold listing at 1 3.
    destruct (listdir st (Py.os_path_join TEST_IMAGE_DIR cls)) as [fnames|]
      eqn:Hls; [|discriminate]. simpl.
    destruct (load_files st _ idx (Py.sorted fnames) acc) as [acc1|] eqn:Hf;
      [|discriminate].
    apply load_files_spec in Hf as (imgs1 & H1 & ->).
    apply IH in H as (imgs2 & H2 & ->). simpl.
    exists (imgs1 ++ imgs2). split.
    + apply Forall2_app; assumption.
    + rewrite map_app, map_map. simpl. now rewrite <- !app_assoc.
Qed.

Lemma load_files_total st folder idx fnames acc :
  Forall (fun f => is_Some (image_open st (Py.os_path_join folder f))) fnames ->
  is_Some (load_files st folder idx fnames acc).
Proof.
  intros H. revert acc. induction H as [|f fnames [raw Hf] _ IH]; simpl; intros acc.
  - eauto.
  - rewrite Hf. apply IH.
Qed.

(** The loader returns whenever every class folder can be listed and every
    listed file can be decoded. *)
Lemma load_raw_test_images_total st :
  Forall (fun cls => is_Some (listdir st (Py.os_path_join TEST_IMAGE_DIR cls)))
    CLASS_NAMES ->
  Forall (fun v => is_Some (image_open st (fst v)))
    (visits (listing st) (Py.enumerate CLASS_NAMES)) ->
  is_Some (load_raw_test_images st).
Proof.
  unfold load_raw_test_images. generalize ([] : list PILImage, [] : list nat).
  unfold Py.enumerate. generalize 0.
  induction CLASS_NAMES as [|cls classes IH]; simpl; intros n acc Hls Hop.
  - eauto.
  - inversion Hls as [|? ? [fnames Hf] Hls']; subst.
    unfold listing in Hop at 1. rewrite Hf in *. simpl in Hop.
    apply Forall_app in Hop as [Hop1 Hop2].
    destruct (load_files_total st (Py.os_path_join TEST_IMAGE_DIR cls) n
                (Py.sorted fnames) acc) as [acc1 Hacc1].
    { rewrite Forall_map in Hop1. exact Hop1. }
    rewrite Hacc1. now apply IH.
Qed.

(** C8. The loader visits the class folders in the order of [CLASS_NAMES]
    and the files of a folder in ascending file-name order (a sorted
    rearrangement of the directory listing); the image of each visited file
    receives the index of its class; the two returned sequences have the
    same length and every label is an index into [CLASS_NAMES]. *)
Theorem C8_loader_visits_in_order st images labels :
  load_raw_test_images st = Some (images, labels) ->
  let order := visits (listing st) (Py.enumerate CLASS_NAMES) in
  Forall2 (decoded st) order images
  /\ labels = map snd order
  /\ (forall folder,
        Sorted name_le (Py.sorted (listing st folder))
        /\ Permutation (listing st folder) (Py.sorted (listing st folder)))
  /\ List.length images = List.length labels
  /\ Forall (fun l => l < List.length CLASS_NAMES) labels.
Proof.
  intros H order.
  apply load_classes_spec in H as (imgs & Hdec & Heq).
  simpl in Heq. inversion Heq; subst images labels. clear Heq.
  fold order in Hdec |- *.
  assert (Hlab : Forall (fun v : string * nat => snd v < 3) order).
  { unfold order, visits. simpl. rewrite !Forall_app, !Forall_map. simpl.
    repeat split; try (apply Forall_forall; intros; simpl; lia).
    constructor. }
  repeat split.
  - exact Hdec.
  - apply sorted_Sorted.
  - apply sorted_perm.
  - apply Forall2_length in Hdec. now rewrite length_map.
  - rewrite Forall_map. exact Hlab.
Qed.

Lemma C8_loader_witness :
  let st := Demo.demo_store in
  let order := visits (listing st) (Py.enumerate CLASS_NAMES) in
  Forall2 (decoded st) order Demo.raw_images
  /\ Demo.y_test = map snd order
  /\ (forall folder,
        Sorted name_le (Py.sorted (listing st folder))
        /\ Permutation (listing st folder) (Py.sorted (listing st folder)))
  /\ List.length Demo.raw_images = List.length Demo.y_test
  /\ Forall (fun l => l < List.length CLASS_NAMES) Demo.y_test.
Proof.
  apply (C8_loader_visits_in_order Demo.demo_store Demo.raw_images
           Demo.y_test).
  reflexivity.
Defined.

(** ** The model evaluator *)

(** *** Rounding and float64 arithmetic *)

Lemma round_half_even_nearest q :
  (Qabs (inject_Z (Py.round_half_even q) - q) <= 1 # 2)%Q.
Proof.
  unfold Py.round_half_even.
  pose proof (Qfloor_le q) as Hlo. pose proof (Qlt_floor q) as Hhi.
  rewrite inject_Z_plus in Hhi. change (inject_Z 1) with 1%Q in Hhi.
  apply Qabs_Qle_condition.
  destruct (Qcompare_spec (q - inject_Z (Qfloor q)) (1 # 2)) as [E|E|E].
  - destruct (Z.even (Qfloor q));
      [|rewrite inject_Z_plus; change (inject_Z 1) with 1%Q]; lra.
  - lra.
  - rewrite inject_Z_plus. change (inject_Z 1) with 1%Q. lra.
Qed.

Lemma round_half_even_inject z : Py.round_half_even (inject_Z z) = z.
Proof.
  unfold Py.round_half_even. rewrite Qfloor_Z.
  set (x := inject_Z z).
  destruct (Qcompare_spec (x - x) (1 # 2)) as [E|E|E]; [lra|reflexivity|lra].
Qed.

Lemma round_half_even_Qeq q q' :
  (q == q')%Q -> Py.round_half_even q = Py.round_half_even q'.
Proof.
  intros H. unfold Py.round_half_even.
  rewrite (Qfloor_comp _ _ H).
  assert (E : (q - inject_Z (Qfloor q') == q' - inject_Z (Qfloor q'))%Q)
    by (rewrite H; reflexivity).
  now rewrite (Qcompare_comp _ _ E _ _ (Qeq_refl (1 # 2))).
Qed.

(** Rounding does not cross an integer. *)
Lemma round_half_even_le q c :
  (q <= inject_Z c)%Q -> (Py.round_half_even q <= c)%Z.
Proof.
  intros H. pose proof (round_half_even_nearest q) as Hn.
  apply Qabs_Qle_condition in Hn. destruct Hn as [_ Hhi].
  assert (Hlt : (inject_Z (Py.round_half_even q) < inject_Z (c + 1))%Q).
  { rewrite inject_Z_plus. change (inject_Z 1) with 1%Q. lra. }
  rewrite <- Zlt_Qlt in Hlt. lia.
Qed.

Lemma round_half_even_ge q c :
  (inject_Z c <= q)%Q -> (c <= Py.round_half_even q)%Z.
Proof.
  intros H. pose proof (round_half_even_nearest q) as Hn.
  apply Qabs_Qle_condition in Hn. destruct Hn as [Hlo _].
  assert (Hlt : (inject_Z (c - 1) < inject_Z (Py.round_half_even q))%Q).
  { unfold Z.sub. rewrite inject_Z_plus.
    change (inject_Z (- (1))) with (- (1))%Q. lra. }
  rewrite <- Zlt_Qlt in Hlt. lia.
Qed.

Lemma two_not_0 : ~ (2 == 0)%Q.
Proof. discriminate. Qed.

Lemma pow2_pos z : (0 < 2 ^ z)%Q.
Proof. apply Qpower_0_lt. reflexivity. Qed.

Lemma pow2_inverse z : (2 ^ (- z) * 2 ^ z == 1)%Q.
Proof.
  rewrite <- Qpower_plus by exact two_not_0.
  replace (- z + z)%Z with 0%Z by lia. reflexivity.
Qed.

Lemma pow2_inject z : (0 <= z)%Z -> (2 ^ z == inject_Z (2 ^ z))%Q.
Proof. intros H. now rewrite Zpower_Qpower. Qed.

(** [Py.exponent] is below the binary logarithm. *)
Lemma exponent_le q : (0 < q)%Q -> (2 ^ Py.exponent q <= q)%Q.
Proof.
  intros Hq. unfold Py.exponent.
  assert (Habs : (Qabs q == q)%Q) by (apply Qabs_pos; lra).
  set (t := (Z.log2 (Z.abs (Qnum q)) - Z.log2 (Z.pos (Qden q)))%Z).
  destruct (Qle_bool (2 ^ t) (Qabs q)) eqn:E.
  - apply Qle_bool_iff in E. now rewrite Habs in E.
  - clear E. destruct q as [a b]. cbn [Qnum Qden] in t.
    assert (Ha : (0 < a)%Z).
    { unfold Qlt in Hq. simpl in Hq. lia. }
    assert (Et : t = (Z.log2 a - Z.log2 (Z.pos b))%Z)
      by (subst t; rewrite Z.abs_eq by lia; reflexivity).
    clearbody t.
    destruct (Z.log2_spec a Ha) as [Hla _].
    destruct (Z.log2_spec (Z.pos b) (Pos2Z.is_pos b)) as [_ Hlb].
    pose proof (Z.log2_nonneg a) as Hna.
    pose proof (Z.log2_nonneg (Z.pos b)) as Hnb.
    assert (E : (2 ^ (t - 1) * 2 ^ (Z.succ (Z.log2 (Z.pos b)))
                 == 2 ^ Z.log2 a)%Q).
    { rewrite <- Qpower_plus by exact two_not_0. subst t.
      replace (Z.log2 a - Z.log2 (Z.pos b) - 1 + Z.succ (Z.log2 (Z.pos b)))%Z
        with (Z.log2 a) by lia.
      reflexivity. }
    rewrite (pow2_inject (Z.succ (Z.log2 (Z.pos b)))) in E by lia.
    rewrite (pow2_inject (Z.log2 a)) in E by lia.
    rewrite Zle_Qle in Hla. rewrite Zlt_Qlt in Hlb.
    rewrite (Qmake_Qdiv a b).
    apply Qle_shift_div_l; [reflexivity|].
    pose proof (pow2_pos (t - 1)) as Hp.
    assert (Hm : (2 ^ (t - 1) * inject_Z (Z.pos b)
                  <= 2 ^ (t - 1) * inject_Z (2 ^ Z.succ (Z.log2 (Z.pos b))))%Q).
    { apply Qmult_le_l; [exact Hp|]. lra. }
    lra.
Qed.

(** The relative error of one rounding is at most 2^-53. *)
Lemma float64_error q :
  (0 <= q)%Q ->
  (q * (1 - float64_eps) <= Py.float64 q /\ Py.float64 q <= q * (1 + float64_eps))%Q.
Proof.
  intros Hq. unfold Py.float64, float64_eps.
  destruct (Qeq_bool q 0) eqn:E.
  - apply Qeq_bool_iff in E. split; lra.
  - apply Qeq_bool_neq in E.
    assert (Hpos : (0 < q)%Q).
    { destruct (Qlt_le_dec 0 q) as [H|H]; [exact H|].
      exfalso. apply E. lra. }
    set (e := (Py.exponent q - 52)%Z). rewrite Qred_correct.
    pose proof (round_half_even_nearest (q * 2 ^ (- e))) as Hn.
    apply Qabs_Qle_condition in Hn. destruct Hn as [Hlo Hhi].
    set (m := inject_Z (Py.round_half_even (q * 2 ^ (- e)))) in *.
    pose proof (pow2_pos e) as Hp.
    pose proof (pow2_inverse e) as Hinv.
    assert (Hexp : (2 ^ e * 4503599627370496 <= q)%Q).
    { pose proof (exponent_le q Hpos) as Hle.
      assert (Hsplit : (2 ^ Py.exponent q == 2 ^ e * 2 ^ 52)%Q).
      { rewrite <- Qpower_plus by exact two_not_0. subst e.
        replace (Py.exponent q - 52 + 52)%Z with (Py.exponent q) by lia.
        reflexivity. }
      rewrite Hsplit in Hle.
      assert (H52 : (2 ^ 52 == 4503599627370496)%Q) by reflexivity.
      rewrite H52 in Hle. exact Hle. }
    set (p := (2 ^ e)%Q) in *. set (s := (2 ^ (- e))%Q) in *.
    assert (H1 : ((m - q * s) * p <= (1 # 2) * p)%Q).
    { apply Qmult_le_compat_r; lra. }
    assert (H2 : (- (1 # 2) * p <= (m - q * s) * p)%Q).
    { apply Qmult_le_compat_r; lra. }
    assert (H3 : ((m - q * s) * p == m * p - q * (s * p))%Q) by ring.
    rewrite Hinv in H3. rewrite H3 in H1, H2.
    split; lra.
Qed.

(** A rational up to 1 is not rounded beyond 1. *)
Lemma float64_le_1 q : (0 <= q <= 1)%Q -> (0 <= Py.float64 q <= 1)%Q.
Proof.
  intros [H0 H1]. split.
  - pose proof (float64_error q H0) as [Hlo _]. unfold float64_eps in Hlo.
    assert (0 <= q * (1 - (1 # 9007199254740992)))%Q; [|lra].
    apply Qmult_le_0_compat; [exact H0|]. lra.
  - unfold Py.float64. destruct (Qeq_bool q 0) eqn:E; [lra|].
    apply Qeq_bool_neq in E.
    assert (Hpos : (0 < q)%Q).
    { destruct (Qlt_le_dec 0 q) as [H|H]; [exact H|].
      exfalso. apply E. lra. }
    set (e := (Py.exponent q - 52)%Z). rewrite Qred_correct.
    assert (Ht : (Py.exponent q <= 0)%Z).
    { apply (Qpower_le_compat_l_inv 2); [|reflexivity].
      pose proof (exponent_le q Hpos). change (2 ^ 0)%Q with 1%Q. lra. }
    assert (He : (0 <= - e)%Z) by (subst e; lia).
    pose proof (pow2_pos e) as Hp. pose proof (pow2_pos (- e)) as Hs.
    pose proof (pow2_inverse e) as Hinv.
    assert (Hle : (Py.round_half_even (q * 2 ^ (- e)) <= 2 ^ (- e))%Z).
    { apply round_half_even_le. rewrite <- (pow2_inject (- e) He).
      assert (q * 2 ^ (- e) <= 1 * 2 ^ (- e))%Q; [|lra].
      apply Qmult_le_compat_r; lra. }
    rewrite Zle_Qle in Hle. rewrite <- (pow2_inject (- e) He) in Hle.
    assert (inject_Z (Py.round_half_even (q * 2 ^ (- e))) * 2 ^ e
            <= 2 ^ (- e) * 2 ^ e)%Q; [|lra].
    apply Qmult_le_compat_r; lra.
Qed.

(** The rational 1 is a Py.float64. *)
Lemma float64_1 q : (q == 1)%Q -> Py.float64 q = 1%Q.
Proof.
  intros H1. unfold Py.float64.
  destruct (Qeq_bool q 0) eqn:E.
  - apply Qeq_bool_iff in E. lra.
  - set (e := (Py.exponent q - 52)%Z).
    change 1%Q with (Qred 1). apply Qred_complete.
    assert (Hpos : (0 < q)%Q) by lra.
    assert (Ht : (Py.exponent q <= 0)%Z).
    { apply (Qpower_le_compat_l_inv 2); [|reflexivity].
      pose proof (exponent_le q Hpos). change (2 ^ 0)%Q with 1%Q. lra. }
    assert (He : (0 <= - e)%Z) by (subst e; lia).
    assert (Hm : Py.round_half_even (q * 2 ^ (- e)) = (2 ^ (- e))%Z).
    { rewrite <- (round_half_even_inject (2 ^ (- e))).
      apply round_half_even_Qeq.
      rewrite <- (pow2_inject (- e) He), H1. ring. }
    rewrite Hm, <- (pow2_inject (- e) He). apply pow2_inverse.
Qed.

(** The percentage of an accuracy between 0 and 1 lies between 0.0 and
    100.0. *)
Lemma round2_percent_range acc :
  (0 <= acc <= 1)%Q -> (0 <= Py.round2 (Py.fmul acc 100) <= 10000)%Z.
Proof.
  intros [H0 H1]. unfold Py.round2, Py.fmul.
  assert (Hx0 : (0 <= acc * 100)%Q) by lra.
  pose proof (float64_error (acc * 100) Hx0) as [Hxl Hxh].
  set (x := Py.float64 (acc * 100)) in *. unfold float64_eps in *.
  assert (Hx : (0 <= x)%Q) by lra.
  assert (Hv0 : (0 <= x * 100)%Q) by lra.
  pose proof (float64_error (x * 100) Hv0) as [Hvl Hvh].
  set (v := Py.float64 (x * 100)) in *. unfold float64_eps in *.
  split.
  - apply round_half_even_ge. change (inject_Z 0) with 0%Q. lra.
  - assert (Hlt : (Py.round_half_even v < 10001)%Z); [|lia].
    pose proof (round_half_even_nearest v) as Hn.
    apply Qabs_Qle_condition in Hn. destruct Hn as [_ Hhi].
    rewrite Zlt_Qlt. change (inject_Z 10001) with 10001%Q. lra.
Qed.

(** The percentage recorded for [k] right answers out of [n], with fewer
    than 10^10 test images: a nearest number of hundredths. *)
Lemma round2_percent_nearest k n :
  (0 <= k <= Z.pos n)%Z -> (Z.pos n < 10 ^ 10)%Z ->
  (Qabs (inject_Z (Py.round2 (Py.fmul (Py.float64 (k # n)) 100))
         - (k # n) * 100 * 100)
   <= 1 # 2)%Q.
Proof.
  intros Hk Hn.
  assert (Hf : (0 <= k # n <= 1)%Q).
  { unfold Qle. simpl. lia. }
  destruct Hf as [Hf0 Hf1].
  pose proof (float64_error (k # n) Hf0) as [Hal Hah].
  set (a := Py.float64 (k # n)) in *. unfold float64_eps in *.
  assert (Ha0 : (0 <= a)%Q) by lra.
  unfold Py.round2, Py.fmul.
  assert (Hx0 : (0 <= a * 100)%Q) by lra.
  pose proof (float64_error (a * 100) Hx0) as [Hxl Hxh].
  set (x := Py.float64 (a * 100)) in *. unfold float64_eps in *.
  assert (Hx : (0 <= x)%Q) by lra.
  assert (Hv0 : (0 <= x * 100)%Q) by lra.
  pose proof (float64_error (x * 100) Hv0) as [Hvl Hvh].
  set (v := Py.float64 (x * 100)) in *. unfold float64_eps in *.
  pose proof (round_half_even_nearest v) as Hr.
  apply Qabs_Qle_condition in Hr. destruct Hr as [Hlo Hhi].
  set (h := Py.round_half_even v) in *.
  assert (Hup : (inject_Z h - (k # n) * 100 * 100
                 <= (1 # 2) + (40000 # 9007199254740992))%Q) by lra.
  assert (Hdn : (- ((1 # 2) + (40000 # 9007199254740992))
                 <= inject_Z h - (k # n) * 100 * 100)%Q) by lra.
  apply Qabs_Qle_condition.
  unfold Qle, Qminus, Qplus, Qmult, Qopp, inject_Z in *.
  cbn [Qnum Qden] in *.
  rewrite ?Pos.mul_1_r, ?Pos.mul_1_l, ?Z.mul_1_r in *.
  rewrite ?Pos2Z.inj_mul in *.
  set (N := Z.pos n) in *. set (P := (h * N)%Z) in *.
  split; lia.
Qed.

Lemma argmax_from_first_max pre l best besti :
  pre !! besti = Some best ->
  (forall j x, pre !! j = Some x -> (x <= best)%Q) ->
  (forall j x, j < besti -> pre !! j = Some x -> (x < best)%Q) ->
  is_first_max (pre ++ l) (argmax_from best besti (List.length pre) l).
Proof.
  revert pre best besti.
  induction l as [|x l IH]; intros pre best besti Hb Hle Hlt; simpl.
  - rewrite app_nil_r. exists best. auto.
  - assert (Hlen : List.length (pre ++ [x]) = S (List.length pre)).
    { rewrite length_app. simpl. lia. }
    replace (pre ++ x :: l) with ((pre ++ [x]) ++ l)
      by (now rewrite <- app_assoc).
    rewrite <- Hlen.
    destruct (Qle_bool x best) eqn:E.
    + apply Qle_bool_iff in E. apply IH.
      * rewrite lookup_app_l; [exact Hb|]. now apply lookup_lt_Some in Hb.
      * intros j y Hj. apply lookup_app_Some in Hj as [Hj|[_ Hj]]; [eauto|].
        destruct (j - List.length pre) as [|k]; simpl in Hj; [|discriminate].
        now inversion Hj; subst.
      * intros j y Hjb Hj. apply lookup_lt_Some in Hb.
        rewrite lookup_app_l in Hj by lia. eauto.
    + assert (Hx : (best < x)%Q).
      { apply Qnot_le_lt. intros H. apply Qle_bool_iff in H. congruence. }
      apply IH.
      * rewrite lookup_app_r by lia. now rewrite Nat.sub_diag.
      * intros j y Hj. apply lookup_app_Some in Hj as [Hj|[_ Hj]].
        -- apply Hle in Hj. lra.
        -- destruct (j - List.length pre) as [|k]; simpl in Hj; [|discriminate].
           inversion Hj; subst. lra.
      * intros j y Hjb Hj. rewrite lookup_app_l in Hj by lia.
        apply Hle in Hj. lra.
Qed.

Lemma argmax_first_max row i : argmax row = Ok i -> is_first_max row i.
Proof.
  destruct row as [|x l]; simpl; [discriminate|].
  intros H. inversion H; subst i. clear H.
  apply (argmax_from_first_max [x] l x 0).
  - reflexivity.
  - intros [|j] y Hj; simpl in Hj; [|discriminate].
    inversion Hj; subst. lra.
  - intros j y Hj. lia.
Qed.

Lemma np_argmax_first_max preds y_pred :
  np_argmax preds = Ok y_pred -> Forall2 is_first_max preds y_pred.
Proof.
  revert y_pred. induction preds as [|row preds IH]; simpl; intros y_pred H.
  - inversion H. constructor.
  - destruct (argmax row) as [i|] eqn:Hi; simpl in H; [|discriminate].
    destruct (np_argmax preds) as [ixs|]; simpl in H; [|discriminate].
    inversion H; subst. constructor; [now apply argmax_first_max|now apply IH].
Qed.

Lemma np_equal_count y_pred y hits :
  np_equal y_pred y = Ok hits ->
  List.length y_pred = List.length y
  /\ List.length hits = List.length y
  /\ count_true hits = correct_count y_pred y.
Proof.
  revert y hits.
  induction y_pred as [|p ps IH]; intros [|t ts] hits H; simpl in H;
    try discriminate.
  - inversion H. auto.
  - destruct (np_equal ps ts) as [bs|] eqn:E; simpl in H; [|discriminate].
    inversion H; subst hits. destruct (IH _ _ E) as (H1 & H2 & H3).
    simpl. repeat split; try lia.
    unfold count_true in *. simpl.
    destruct (Nat.eq_dec p t) as [->|Hne].
    + rewrite Nat.eqb_refl. simpl. lia.
    + apply Nat.eqb_neq in Hne. rewrite Hne. simpl. lia.
Qed.

Lemma resized_imgs_length imgs size arrays :
  resized_imgs imgs size = Ok arrays -> List.length arrays = List.length imgs.
Proof.
  revert arrays. induction imgs as [|img imgs IH]; simpl; intros arrays H.
  - now inversion H.
  - destruct (resize_to img size); simpl in H; [|discriminate].
    destruct (resized_imgs imgs size); simpl in H; [|discriminate].
    inversion H. simpl. f_equal. now apply IH.
Qed.

(** The geometry of what the evaluator hands to inference: [resize] reads
    the pair as (width, height), the array has the rows first. *)
Lemma resized_imgs_geometry imgs a b arrays :
  resized_imgs imgs (Some a, Some b) = Ok arrays ->
  Forall2 (fun img arr => shape arr = [b; a; im_bands img]) imgs arrays.
Proof.
  revert arrays. induction imgs as [|img imgs IH]; simpl; intros arrays H.
  - inversion H. constructor.
  - unfold resize in H. simpl in H.
    destruct ((a <=? INT_MAX)%Z && (b <=? INT_MAX)%Z); simpl in H;
      [|discriminate].
    destruct ((0 <? a)%Z && (0 <? b)%Z); simpl in H; [|discriminate].
    destruct (resized_imgs imgs (Some a, Some b)); simpl in H; [|discriminate].
    inversion H. constructor; [reflexivity|now apply IH].
Qed.

(** What a result of [evaluate_model] is made of. *)
Lemma evaluate_model_spec model imgs y size acc :
  evaluate_model model imgs y size = Ok acc ->
  exists x preds y_pred,
    resized_imgs imgs size = Ok x
    /\ imgs <> []
    /\ predict model x = Ok preds
    /\ np_argmax preds = Ok y_pred
    /\ List.length y_pred = List.length y
    /\ acc
       = Py.float64
           (Z.of_nat (correct_count y_pred y) # Pos.of_nat (List.length y)).
Proof.
  unfold evaluate_model. intros H.
  destruct (resized_imgs imgs size) as [x|] eqn:Hx; simpl in H; [|discriminate].
  destruct (np_stack x) as [x'|] eqn:Hs; simpl in H; [|discriminate].
  assert (x' = x /\ x <> []) as [-> Hne].
  { unfold np_stack in Hs. destruct x as [|a rest]; [discriminate|].
    destruct (forallb _ rest); inversion Hs. now split. }
  destruct (predict model x) as [preds|] eqn:Hp; simpl in H; [|discriminate].
  destruct (np_argmax preds) as [y_pred|] eqn:Ha; simpl in H; [|discriminate].
  destruct (np_equal y_pred y) as [hits|] eqn:He; simpl in H; [|discriminate].
  inversion H; subst acc. apply np_equal_count in He as (H1 & H2 & H3).
  exists x, preds, y_pred. repeat split; trivial.
  - intros ->. simpl in Hx. inversion Hx. congruence.
  - unfold np_mean. now rewrite H2, H3.
Qed.

Lemma evaluate_model_no_None model imgs y size acc :
  evaluate_model model imgs y size = Ok acc -> has_None size = false.
Proof.
  intros H. apply evaluate_model_spec in H as (x & _ & _ & Hx & Hne & _).
  destruct imgs as [|img imgs]; [congruence|]. simpl in Hx.
  destruct size as [[a|] [b|]]; simpl in *; try discriminate. reflexivity.
Qed.

Lemma correct_count_le y_pred y : correct_count y_pred y <= List.length y.
Proof.
  revert y. induction y_pred as [|p ps IH]; intros [|t ts]; simpl; try lia.
  specialize (IH ts). destruct (Nat.eq_dec p t); lia.
Qed.

(** A count of [k] out of [n], as a fraction. *)
Lemma fraction_range k n :
  k <= n -> (0 <= Z.of_nat k # Pos.of_nat n <= 1)%Q.
Proof.
  intros Hle. unfold Qle. simpl. split; [lia|].
  destruct n as [|n].
  - assert (k = 0) as -> by lia. simpl. lia.
  - rewrite Z.mul_1_r, <- Pos.of_nat_succ, Zpos_P_of_succ_nat. lia.
Qed.

(** The accuracy returned by the evaluator lies between 0 and 1. *)
Lemma evaluate_model_range model imgs y size acc :
  evaluate_model model imgs y size = Ok acc -> (0 <= acc <= 1)%Q.
Proof.
  intros H. apply evaluate_model_spec in H
    as (x & preds & y_pred & _ & _ & _ & _ & _ & ->).
  apply float64_le_1. apply fraction_range. apply correct_count_le.
Qed.

Lemma Zpos_of_nat n : Z.pos (Pos.of_nat n) = Z.max 1 (Z.of_nat n).
Proof.
  destruct n as [|n]; [reflexivity|].
  rewrite <- Pos.of_nat_succ, Zpos_P_of_succ_nat. lia.
Qed.

(** ** The submission handler *)

Lemma truthy_iff s : Py.truthy s = true <-> s <> EmptyString.
Proof. destruct s; simpl; split; congruence. Qed.

Lemma truthy_false_iff s : Py.truthy s = false <-> s = EmptyString.
Proof. destruct s; simpl; split; congruence. Qed.

(** The temporary file is gone when the [with] block is left, whatever the
    body did and however it ended. *)
Lemma with_NamedTemporaryFile_deletes {A} name (body : string -> M A) w :
  files (fst (with_NamedTemporaryFile name body w)) !! name = None.
Proof.
  unfold with_NamedTemporaryFile. simpl.
  destruct (body name _) as [w2 r]. simpl. apply lookup_delete_eq.
Qed.

(** Every pass through the handler ends in one of the eight ways of
    [outcome]. *)
Lemma handle_submission_outcome env sub lb raw y w :
  outcome env sub lb raw y w
    (fst (handle_submission env sub lb raw y w))
    (snd (handle_submission env sub lb raw y w)).
Proof.
  unfold handle_submission.
  destruct (submit sub) eqn:Hsub; simpl; [|now constructor].
  destruct (uploaded_file sub) as [upload|] eqn:Hup; simpl;
    [|now constructor].
  destruct (Py.truthy (Py.strip (username sub))) eqn:Hname; simpl.
  2:{ apply truthy_false_iff in Hname. eapply out_missing_username; eauto. }
  apply truthy_iff in Hname.
  unfold with_NamedTemporaryFile, try_except, check_and_evaluate, bind,
    write_file, load_model, unlink. simpl.
  rewrite lookup_insert_eq, insert_insert_eq.
  destruct (keras_load env upload) as [model|e] eqn:Hload; simpl.
  2:{ rewrite delete_insert_eq. eapply out_could_not_load; eauto. }
  destruct (accepts_rgb (input_shape model)) eqn:Hacc; simpl.
  2:{ rewrite delete_insert_eq. eapply out_not_supported; eauto. }
  fold (input_size_of model).
  destruct (has_None (input_size_of model)) eqn:Hnone; simpl.
  { rewrite delete_insert_eq. eapply out_concrete_dims; eauto. }
  unfold record_result, bind, run_evaluate_model. simpl.
  destruct (evaluate_model model raw y (input_size_of model)) as [acc|e]
    eqn:Hev; simpl.
  - eapply out_recorded; eauto. now split.
  - rewrite delete_insert_eq.
    eapply out_could_not_run; eauto. now split.
Qed.

Lemma list_snoc_inj {A} (l : list A) x y : l ++ [x] = l ++ [y] -> x = y.
Proof. intros H. apply app_inv_head in H. now inversion H. Qed.

Lemma list_snoc_neq {A} (l : list A) x : l <> l ++ [x].
Proof.
  intros H. apply (f_equal (@List.length A)) in H.
  rewrite length_app in H. simpl in H. lia.
Qed.

Lemma accepts_rgb_iff shp :
  accepts_rgb shp = true
  <-> List.length shp = 4 /\ List.last shp None = Some 3%Z.
Proof.
  unfold accepts_rgb. rewrite andb_true_iff, Nat.eqb_eq, bool_decide_eq_true.
  reflexivity.
Qed.

Lemma dim_None_iff shp i :
  i < List.length shp -> dim shp i = None <-> shp !! i = Some None.
Proof.
  intros Hi. unfold dim.
  destruct (shp !! i) as [[d|]|] eqn:E.
  - split; congruence.
  - split; congruence.
  - apply lookup_ge_None in E. lia.
Qed.

(** The handler's check is the negation of the rejection condition. *)
Lemma shape_accepted_iff shp : shape_accepted shp <-> ~ shape_unsupported shp.
Proof.
  unfold shape_accepted, shape_unsupported, has_None. simpl.
  rewrite accepts_rgb_iff. split.
  - intros [[Hlen Hlast] Hnone] [H|[H|[H|H]]]; try congruence.
    + apply dim_None_iff in H; [|lia]. rewrite H in Hnone. discriminate.
    + apply dim_None_iff in H; [|lia]. rewrite H in Hnone.
      simpl in Hnone. now rewrite orb_true_r in Hnone.
  - intros H.
    assert (Hlen : List.length shp = 4).
    { destruct (Nat.eq_dec (List.length shp) 4); [trivial|tauto]. }
    assert (Hlast : List.last shp None = Some 3%Z).
    { destruct (decide (List.last shp None = Some 3%Z)); [trivial|tauto]. }
    repeat split; trivial.
    destruct (dim shp 1) eqn:E1; simpl.
    + destruct (dim shp 2) eqn:E2; simpl; [reflexivity|].
      apply dim_None_iff in E2; [tauto|lia].
    + apply dim_None_iff in E1; [tauto|lia].
Qed.

Lemma not_accepted_cases shp :
  accepts_rgb shp = false \/ has_None (dim shp 1, dim shp 2) = true ->
  ~ shape_accepted shp.
Proof.
  unfold shape_accepted. intros [H|H] [H1 H2]; congruence.
Qed.

Lemma load_leaderboard_reads w : fst (load_leaderboard w) = w.
Proof.
  unfold load_leaderboard, bind, os_path_exists, ret. simpl.
  destruct (bool_decide (is_Some (files w !! LEADERBOARD_FILE))); [|reflexivity].
  destruct (files w !! LEADERBOARD_FILE) as [content|]; [|reflexivity].
  now destruct (Csv.read_csv content).
Qed.

(** A run either stops before the handler, with the world as it was, or is
    one pass through the handler on the loaded table and test set. *)
Lemma run_outcome env sub w :
  (fst (run env sub w) = w /\ exists e, snd (run env sub w) = Raise e)
  \/ exists lb raw y lb',
       snd (load_leaderboard w) = Ok lb
       /\ load_raw_test_images (store env) = Some (raw, y)
       /\ outcome env sub lb raw y w (fst (run env sub w)) (Ok lb')
       /\ snd (run env sub w) = Ok (render lb').
Proof.
  unfold run, bind.
  pose proof (load_leaderboard_reads w) as Hw.
  destruct (load_leaderboard w) as [w0 [lb|e]]; simpl in Hw; subst w0;
    [|left; eauto].
  destruct (load_raw_test_images (store env)) as [[raw y]|]; simpl;
    [|left; eauto].
  pose proof (handle_submission_outcome env sub lb raw y w) as Hout.
  destruct (handle_submission env sub lb raw y w) as [w' r]. simpl in *.
  right. exists lb, raw, y.
  inversion Hout; subst; eexists; repeat split; eauto.
Qed.

(** ** Geometry of the resized images *)

(** C1, at a model that declares the input (None, 64, 128, 3), height 64
    and width 128.  The handler extracts (64, 128) as (height, width) and
    the evaluator passes this pair to [resize], which reads it as
    (width, height): every image handed to inference is 64 wide and 128
    high, its array has the shape (128, 64, bands), and a Keras model of
    the declared geometry refuses the batch. *)
Theorem C1_resize_takes_height_for_width :
  let model := Demo.wide_model in
  shape_accepted (input_shape model)
  /\ input_size_of model = (Some 64, Some 128)%Z
  /\ (forall img,
        exists r,
          resize_to img (input_size_of model) = Ok r
          /\ im_width r = 64%Z /\ im_height r = 128%Z
          /\ shape (np_array r) = [128; 64; im_bands img]%Z)
  /\ evaluate_model model Demo.raw_images Demo.y_test (input_size_of model)
     = Raise "incompatible input shape".
Proof.
  simpl. repeat split.
  intros img. eexists. repeat split.
Qed.

(** The same through a whole run of the script: the submission of that
    model ends with the message that it could not be run, and nothing is
    recorded. *)
Lemma nonsquare_submission_run :
  let sub := mkSubmission "alice" (Some "wide") true in
  notices (fst (run Demo.demo_env sub Demo.empty_world))
  = [CouldNotRun "incompatible input shape"]
  /\ saves (fst (run Demo.demo_env sub Demo.empty_world)) = 0
  /\ snd (run Demo.demo_env sub Demo.empty_world) = Ok NoSubmissionsYet.
Proof. vm_compute. repeat split. Qed.

(** Under a square geometry the swap cannot be seen. *)
Lemma resized_imgs_square imgs n arrays :
  resized_imgs imgs (Some n, Some n) = Ok arrays ->
  Forall2 (fun img arr => shape arr = [n; n; im_bands img]) imgs arrays.
Proof. apply resized_imgs_geometry. Qed.

(** ** The displayed table *)

Lemma insert_desc_perm x l : Permutation (x :: l) (insert_desc x l).
Proof.
  induction l as [|z l IH]; simpl; [reflexivity|].
  destruct (String.leb (dAccuracy z) (dAccuracy x)); [reflexivity|].
  rewrite <- IH. apply perm_swap.
Qed.

Lemma sort_values_desc_perm rows : Permutation rows (sort_values_desc rows).
Proof.
  induction rows as [|x rows IH]; simpl; [constructor|].
  rewrite <- insert_desc_perm. now constructor.
Qed.

Lemma insert_desc_Sorted x l :
  Sorted key_ge l -> Sorted key_ge (insert_desc x l).
Proof.
  induction 1 as [|z l Hs IH Hhd]; simpl.
  - repeat constructor.
  - destruct (String.leb (dAccuracy z) (dAccuracy x)) eqn:E.
    + constructor; [now constructor|]. now constructor.
    + assert (Hzx : key_ge z x).
      { unfold key_ge.
        destruct (String.leb_total (dAccuracy x) (dAccuracy z)); congruence. }
      constructor; [exact IH|].
      destruct l as [|u l]; simpl.
      * now constructor.
      * destruct (String.leb (dAccuracy u) (dAccuracy x)); constructor;
          trivial. now inversion Hhd.
Qed.

(** What the page shows is ordered by the texts of the Accuracy column,
    largest text first. *)
Lemma sort_values_desc_Sorted rows : Sorted key_ge (sort_values_desc rows).
Proof.
  induction rows as [|x rows IH]; simpl; [constructor|].
  now apply insert_desc_Sorted.
Qed.

(** C2, at a leaderboard that holds a row with accuracy 99.5 to which the
    row of a perfect model (accuracy 100.0) is appended.  The table is
    sorted on the texts "99.5 %" and "100.0 %", so the new row, whose
    accuracy is the larger number, is displayed below the old one. *)
Theorem C2_perfect_score_displayed_below_lower_one :
  let appended := new_row "alice" 1 "2024-05-17 09:30:00" in
  Accuracy Demo.bob_row = Num 9950
  /\ Accuracy appended = Num 10000
  /\ render ([Demo.bob_row] ++ [appended])
     = Table
         [mkDisplayRow (Str "bob") "99.5 %" (Str Demo.T1);
          mkDisplayRow (Str "alice") "100.0 %" (Str "2024-05-17 09:30:00")].
Proof. vm_compute. repeat split. Qed.

(** The same through a whole run of the script: "alice" submits a perfect
    model while the file holds bob's 99.5. *)
Lemma perfect_submission_run :
  let w := Demo.world_with (Csv.to_csv [Demo.bob_row]) in
  let sub := mkSubmission "alice" (Some "perfect") true in
  notices (fst (run Demo.demo_env sub w)) = [Evaluated 1]
  /\ snd (run Demo.demo_env sub w)
     = Ok (Table
             [mkDisplayRow (Str "bob") "99.5 %" (Str Demo.T1);
              mkDisplayRow (Str "alice") "100.0 %"
                (Str "2024-05-17 09:30:00")]).
Proof. vm_compute. split; reflexivity. Qed.

(** ** Successful submissions *)

(** Two readings of the same submission name the same upload and the same
    model. *)
Ltac same_upload :=
  repeat match goal with
    | H1 : uploaded_file ?s = Some ?u, H2 : uploaded_file ?s = Some ?v |- _ =>
        assert (u = v) by congruence; subst u; clear H1
    | H1 : keras_load ?e ?b = Ok ?m, H2 : keras_load ?e ?b = Ok ?n |- _ =>
        assert (m = n) by congruence; subst m; clear H1
    end.

(** C3, as amended.  For every submission with a username that is not
    empty once the surrounding white space is stripped, and a model that
    loads, passes the shape check and evaluates without exception on the
    test set (one label per image), the handler appends exactly one row and
    saves the table.  The accuracy the evaluator returns is the float64 of
    the fraction of test images whose predicted class (the position of the
    first largest score) equals the label.  The row's accuracy is a number
    of hundredths and, with fewer than 10^10 test images, it is that
    fraction times 100 rounded to two decimals: no number of two decimals
    is nearer. *)
Theorem C3_successful_submission_appends_one_row
    env sub lb raw y w upload model acc :
  submit sub = true ->
  uploaded_file sub = Some upload ->
  Py.strip (username sub) <> EmptyString ->
  keras_load env upload = Ok model ->
  shape_accepted (input_shape model) ->
  List.length raw = List.length y ->
  (Z.of_nat (List.length raw) < 10 ^ 10)%Z ->
  evaluate_model model raw y (input_size_of model) = Ok acc ->
  tmpname env <> LEADERBOARD_FILE ->
  let w' := fst (handle_submission env sub lb raw y w) in
  exists row x preds y_pred h,
    snd (handle_submission env sub lb raw y w) = Ok (lb ++ [row])
    /\ files w' !! LEADERBOARD_FILE = Some (Csv.to_csv (lb ++ [row]))
    /\ saves w' = S (saves w)
    /\ notices w' = notices w ++ [Evaluated acc]
    /\ resized_imgs raw (input_size_of model) = Ok x
    /\ predict model x = Ok preds
    /\ Forall2 is_first_max preds y_pred
    /\ List.length y_pred = List.length raw
    /\ Accuracy row = Num h
    /\ let fraction :=
         Z.of_nat (correct_count y_pred y) # Pos.of_nat (List.length raw) in
       acc = Py.float64 fraction
       /\ (Qabs (inject_Z h - fraction * 100 * 100) <= 1 # 2)%Q.
Proof.
  intros Hsub Hup Hname Hload Hshape Hraw Hsize Hev Htmp w'.
  pose proof (handle_submission_outcome env sub lb raw y w) as Hout.
  fold w' in Hout.
  destruct (evaluate_model_spec _ _ _ _ _ Hev)
    as (x & preds & y_pred & Hx & _ & Hp & Ha & Hlen & Hacc).
  rewrite <- Hraw in Hlen, Hacc.
  inversion Hout as
    [ Hs | Hs Hu | u Hs Hu Hn | u e Hs Hu Hn Hl | u m Hs Hu Hn Hl Ha'
    | u m Hs Hu Hn Hl Ha' Hnn | u m e Hs Hu Hn Hl Ha' He
    | u m acc' Hs Hu Hn Hl Ha' He lb' Hw Hr ];
    try congruence.
  - same_upload. destruct Hshape as [Hs1 _].
    rewrite Hs1 in Ha'. discriminate.
  - same_upload. destruct Hshape as [_ Hs2].
    unfold input_size_of in Hnn. rewrite Hs2 in Hnn. discriminate.
  - same_upload. rewrite Hev in He. inversion He; subst acc'.
    subst lb'.
    exists (new_row (username sub) acc (strftime (now env))), x, preds,
      y_pred, (Py.round2 (Py.fmul acc 100)).
    cbn [fst snd files saves notices Accuracy new_row].
    repeat split; trivial.
    + rewrite lookup_delete_ne by exact Htmp. apply lookup_insert_eq.
    + now apply np_argmax_first_max.
    + rewrite Hacc. apply round2_percent_nearest.
      * pose proof (correct_count_le y_pred y) as Hle.
        rewrite Zpos_of_nat. lia.
      * rewrite Zpos_of_nat. lia.
Qed.

Lemma C3_successful_submission_witness :
  let sub := mkSubmission "alice" (Some "square") true in
  exists row x preds y_pred h,
    snd (handle_submission Demo.demo_env sub [] Demo.raw_images Demo.y_test
           Demo.empty_world) = Ok ([] ++ [row])
    /\ files (fst (handle_submission Demo.demo_env sub [] Demo.raw_images
                     Demo.y_test Demo.empty_world)) !! LEADERBOARD_FILE
       = Some (Csv.to_csv ([] ++ [row]))
    /\ saves (fst (handle_submission Demo.demo_env sub [] Demo.raw_images
                     Demo.y_test Demo.empty_world)) = 1
    /\ notices (fst (handle_submission Demo.demo_env sub [] Demo.raw_images
                       Demo.y_test Demo.empty_world))
       = [] ++ [Evaluated (Py.float64 (1 # 3))]
    /\ resized_imgs Demo.raw_images (Some 64, Some 64)%Z = Ok x
    /\ Demo.fixed_scores 64 64 Demo.always_A x = Ok preds
    /\ Forall2 is_first_max preds y_pred
    /\ List.length y_pred = 3
    /\ Accuracy row = Num h
    /\ Py.float64 (1 # 3)
       = Py.float64 (Z.of_nat (correct_count y_pred Demo.y_test) # 3)
    /\ (Qabs (inject_Z h
              - (Z.of_nat (correct_count y_pred Demo.y_test) # 3) * 100 * 100)
        <= 1 # 2)%Q.
Proof.
  intros sub.
  apply (C3_successful_submission_appends_one_row Demo.demo_env sub []
           Demo.raw_images Demo.y_test Demo.empty_world "square"
           (Demo.constant_model [None; Some 64; Some 64; Some 3]%Z 64 64
              Demo.always_A) (Py.float64 (1 # 3))).
  - reflexivity.
  - reflexivity.
  - vm_compute. discriminate.
  - reflexivity.
  - split; reflexivity.
  - reflexivity.
  - reflexivity.
  - reflexivity.
  - vm_compute. discriminate.
Defined.

(** 23 right answers out of 160: the fraction times 100 is 14.375, half way
    between 14.37 and 14.38.  The product of the floats is below 14.375,
    and the row holds 14.37. *)
Example accuracy_of_23_in_160 :
  let acc := Py.float64 (23 # 160) in
  ((23 # 160) * 100 * 100 == 14375 # 10)%Q
  /\ (Py.fmul acc 100 < 14375 # 1000)%Q
  /\ Accuracy (new_row "alice" acc Demo.T1) = Num 1437.
Proof. vm_compute. repeat split. Qed.

(** C3, as stated, fails at the username made of one space: it is not
    empty, the model loads and evaluates without exception, and yet the
    handler asks for a username and appends no row. *)
Lemma C3_blank_username_counterexample :
  let sub := mkSubmission " " (Some "square") true in
  let hs := handle_submission Demo.demo_env sub [] Demo.raw_images
              Demo.y_test Demo.empty_world in
  username sub <> EmptyString
  /\ (exists model acc,
        keras_load Demo.demo_env "square" = Ok model
        /\ shape_accepted (input_shape model)
        /\ evaluate_model model Demo.raw_images Demo.y_test
             (input_size_of model) = Ok acc)
  /\ snd hs = Ok []
  /\ (forall row, snd hs <> Ok ([] ++ [row]))
  /\ notices (fst hs) = [MissingUsername]
  /\ saves (fst hs) = 0
  /\ files (fst hs) !! LEADERBOARD_FILE = None.
Proof.
  simpl. repeat split.
  - discriminate.
  - eexists _, _. repeat split.
  - intros row. discriminate.
Qed.

(** ** Rejected shapes *)

(** C4. For every loaded model, the submission ends with one of the two
    messages of UnsupportedShape exactly when the declared shape has a rank
    other than 4, or a last dimension other than 3, or an open height or
    width; a rejected submission runs no evaluation, calls no save, appends
    no row and leaves the leaderboard file as it was.  In particular a last
    dimension other than 3 is rejected whatever the other dimensions. *)
Theorem C4_unsupported_shape_rejected
    env sub lb raw y w upload model :
  submit sub = true ->
  uploaded_file sub = Some upload ->
  Py.strip (username sub) <> EmptyString ->
  keras_load env upload = Ok model ->
  tmpname env <> LEADERBOARD_FILE ->
  let w' := fst (handle_submission env sub lb raw y w) in
  let rejected :=
    exists n, notices w' = notices w ++ [n] /\ is_UnsupportedShape n = true in
  (rejected <-> shape_unsupported (input_shape model))
  /\ (rejected ->
      snd (handle_submission env sub lb raw y w) = Ok lb
      /\ evaluations w' = evaluations w
      /\ saves w' = saves w
      /\ files w' !! LEADERBOARD_FILE = files w !! LEADERBOARD_FILE)
  /\ (List.last (input_shape model) None <> Some 3%Z -> rejected).
Proof.
  intros Hsub Hup Hname Hload Htmp w' rejected.
  pose proof (handle_submission_outcome env sub lb raw y w) as Hout.
  fold w' in Hout. subst rejected.
  assert (Hlast : List.last (input_shape model) None <> Some 3%Z ->
                  shape_unsupported (input_shape model)).
  { intros H. right. now left. }
  inversion Hout as
    [ Hs | Hs Hu | u Hs Hu Hn | u e Hs Hu Hn Hl | u m Hs Hu Hn Hl Ha'
    | u m Hs Hu Hn Hl Ha' Hnn | u m e Hs Hu Hn Hl Ha' He
    | u m acc' Hs Hu Hn Hl Ha' He lb' Hw Hr ];
    try congruence; same_upload; simpl.
  - (* the shape is not supported *)
    assert (Hun : shape_unsupported (input_shape m)).
    { destruct (decide (shape_unsupported (input_shape m))) as [|Hno];
        [trivial|].
      apply shape_accepted_iff in Hno. destruct Hno as [Hno _].
      rewrite Hno in Ha'. discriminate. }
    assert (Hrej : exists n,
               notices w ++ [NotSupported (input_shape m)] = notices w ++ [n]
               /\ is_UnsupportedShape n = true) by eauto.
    repeat split; trivial; try (now rewrite lookup_delete_ne).
  - (* a dimension is open *)
    assert (Hun : shape_unsupported (input_shape m)).
    { destruct (decide (shape_unsupported (input_shape m))) as [|Hno];
        [trivial|].
      apply shape_accepted_iff in Hno. destruct Hno as [_ Hno].
      unfold input_size_of in Hnn. rewrite Hno in Hnn. discriminate. }
    assert (Hrej : exists n,
               notices w ++ [ConcreteDims] = notices w ++ [n]
               /\ is_UnsupportedShape n = true) by eauto.
    repeat split; trivial; try (now rewrite lookup_delete_ne).
  - (* evaluated, with an exception *)
    assert (Hno : ~ shape_unsupported (input_shape m))
      by now apply shape_accepted_iff.
    assert (Hnr : ~ exists n,
               notices w ++ [CouldNotRun e] = notices w ++ [n]
               /\ is_UnsupportedShape n = true).
    { intros (n & Hn' & Hb). apply list_snoc_inj in Hn'. now subst n. }
    repeat split; tauto.
  - (* evaluated and recorded *)
    assert (Hno : ~ shape_unsupported (input_shape m))
      by now apply shape_accepted_iff.
    assert (Hnr : ~ exists n,
               notices w ++ [Evaluated acc'] = notices w ++ [n]
               /\ is_UnsupportedShape n = true).
    { intros (n & Hn' & Hb). apply list_snoc_inj in Hn'. now subst n. }
    repeat split; tauto.
Qed.

Lemma C4_unsupported_shape_witness :
  let sub := mkSubmission "alice" (Some "gray") true in
  let model :=
    Demo.constant_model [None; Some 64; Some 64; Some 1]%Z 64 64
      Demo.always_A in
  let w' := fst (handle_submission Demo.demo_env sub [Demo.bob_row]
                   Demo.raw_images Demo.y_test Demo.empty_world) in
  let rejected :=
    exists n,
      notices w' = notices Demo.empty_world ++ [n]
      /\ is_UnsupportedShape n = true in
  (rejected <-> shape_unsupported (input_shape model))
  /\ (rejected ->
      snd (handle_submission Demo.demo_env sub [Demo.bob_row]
             Demo.raw_images Demo.y_test Demo.empty_world)
      = Ok [Demo.bob_row]
      /\ evaluations w' = evaluations Demo.empty_world
      /\ saves w' = saves Demo.empty_world
      /\ files w' !! LEADERBOARD_FILE
         = files Demo.empty_world !! LEADERBOARD_FILE)
  /\ (List.last (input_shape model) None <> Some 3%Z -> rejected).
Proof.
  intros sub model.
  apply (C4_unsupported_shape_rejected Demo.demo_env sub [Demo.bob_row]
           Demo.raw_images Demo.y_test Demo.empty_world "gray" model).
  - reflexivity.
  - reflexivity.
  - vm_compute. discriminate.
  - reflexivity.
  - vm_compute. discriminate.
Defined.

(** ** Failures leave the leaderboard alone *)

(** C5. When a run of the script ends with a message of failure (a missing
    file or username, a model that does not load, a rejected shape, an
    exception during evaluation), the content of the leaderboard file is
    what it was before the run and [save_leaderboard] was not called. *)
Theorem C5_failure_leaves_leaderboard_file env sub w n :
  tmpname env <> LEADERBOARD_FILE ->
  notices (fst (run env sub w)) = notices w ++ [n] ->
  is_failure n = true ->
  files (fst (run env sub w)) !! LEADERBOARD_FILE
  = files w !! LEADERBOARD_FILE
  /\ saves (fst (run env sub w)) = saves w.
Proof.
  intros Htmp Hn Hfail.
  destruct (run_outcome env sub w)
    as [[Hw _]|(lb & raw & y & lb' & _ & _ & Hout & _)].
  - rewrite Hw. now split.
  - remember (fst (run env sub w)) as w' eqn:Ew. clear Ew.
    inversion Hout; subst w'; simpl in *;
      try (split; [now rewrite ?lookup_delete_ne|reflexivity]).
    apply list_snoc_inj in Hn. subst n. discriminate.
Qed.

Lemma C5_failure_witness :
  let sub := mkSubmission "alice" (Some "junk") true in
  let w := Demo.world_with (Csv.to_csv [Demo.bob_row]) in
  files (fst (run Demo.demo_env sub w)) !! LEADERBOARD_FILE
  = files w !! LEADERBOARD_FILE
  /\ saves (fst (run Demo.demo_env sub w)) = saves w.
Proof.
  intros sub w.
  apply (C5_failure_leaves_leaderboard_file Demo.demo_env sub w
           (CouldNotLoad "file signature not found")).
  - vm_compute. discriminate.
  - vm_compute. reflexivity.
  - reflexivity.
Defined.

(** ** Missing inputs *)

(** C7. A submission with neither a file nor a username gets exactly one
    message, the warning about the missing file; and no submission gets
    both warnings. *)
Theorem C7_missing_file_before_missing_username env sub lb raw y w :
  let w' := fst (handle_submission env sub lb raw y w) in
  (submit sub = true ->
   uploaded_file sub = None ->
   Py.strip (username sub) = EmptyString ->
   notices w' = notices w ++ [MissingFile])
  /\ (exists new,
        notices w' = notices w ++ new
        /\ List.length new <= 1
        /\ ~ (In MissingFile new /\ In MissingUsername new)).
Proof.
  intros w'.
  pose proof (handle_submission_outcome env sub lb raw y w) as Hout.
  fold w' in Hout. clearbody w'.
  inversion Hout as
    [ Hs | Hs Hu | u Hs Hu Hn' | u e Hs Hu Hn' Hl
    | u m Hs Hu Hn' Hl Ha' | u m Hs Hu Hn' Hl Ha' Hnn
    | u m e Hs Hu Hn' Hl Ha' He
    | u m acc' Hs Hu Hn' Hl Ha' He lb'' ];
    subst w'; (split; [intros; simpl; congruence|]);
    [ exists [] | exists [MissingFile] | exists [MissingUsername]
    | exists [CouldNotLoad e] | exists [NotSupported (input_shape m)]
    | exists [ConcreteDims] | exists [CouldNotRun e]
    | exists [Evaluated acc'] ];
    simpl; rewrite ?app_nil_r; (split; [reflexivity|]);
    (split; [lia|]); intros [H1 H2]; simpl in *;
    intuition discriminate.
Qed.

Lemma C7_missing_file_witness :
  let sub := mkSubmission " " None true in
  notices (fst (handle_submission Demo.demo_env sub [] Demo.raw_images
                  Demo.y_test Demo.empty_world))
  = notices Demo.empty_world ++ [MissingFile].
Proof.
  intros sub.
  apply (C7_missing_file_before_missing_username Demo.demo_env sub []
           Demo.raw_images Demo.y_test Demo.empty_world); reflexivity.
Defined.

(** ** The temporary file *)

(** C9. For every submission that reaches the writing of the temporary
    file, the handling ends with one of the five messages of the paths
    below it (load failure, the two shape rejections, an exception during
    evaluation, success), and on each of them the temporary file is gone
    from the file system and no file other than the leaderboard has
    changed. *)
Theorem C9_temporary_file_deleted env sub lb raw y w upload :
  submit sub = true ->
  uploaded_file sub = Some upload ->
  Py.strip (username sub) <> EmptyString ->
  let w' := fst (handle_submission env sub lb raw y w) in
  files w' !! tmpname env = None
  /\ (forall path,
        path <> tmpname env -> path <> LEADERBOARD_FILE ->
        files w' !! path = files w !! path)
  /\ exists n,
       notices w' = notices w ++ [n]
       /\ match n with
          | CouldNotLoad _ | NotSupported _ | ConcreteDims | CouldNotRun _
          | Evaluated _ => True
          | MissingFile | MissingUsername => False
          end.
Proof.
  intros Hsub Hup Hname w'.
  pose proof (handle_submission_outcome env sub lb raw y w) as Hout.
  fold w' in Hout. clearbody w'.
  inversion Hout; subst w'; simpl; try congruence;
    (split; [apply lookup_delete_eq|]);
    (split; [intros path Hp1 Hp2;
             now rewrite lookup_delete_ne, ?lookup_insert_ne by congruence|]);
    eexists; split; try reflexivity; exact I.
Qed.

Lemma C9_temporary_file_witness :
  let sub := mkSubmission "alice" (Some "wide") true in
  let w' := fst (handle_submission Demo.demo_env sub [] Demo.raw_images
                   Demo.y_test Demo.empty_world) in
  files w' !! tmpname Demo.demo_env = None
  /\ (forall path,
        path <> tmpname Demo.demo_env -> path <> LEADERBOARD_FILE ->
        files w' !! path = files Demo.empty_world !! path)
  /\ exists n,
       notices w' = notices Demo.empty_world ++ [n]
       /\ match n with
          | CouldNotLoad _ | NotSupported _ | ConcreteDims | CouldNotRun _
          | Evaluated _ => True
          | MissingFile | MissingUsername => False
          end.
Proof.
  intros sub.
  apply (C9_temporary_file_deleted Demo.demo_env sub [] Demo.raw_images
           Demo.y_test Demo.empty_world "wide").
  - reflexivity.
  - reflexivity.
  - vm_compute. discriminate.
Defined.

(** ** The recorded username *)

(** C10. The guard looks at the stripped username: with a file attached,
    the warning about the username is shown exactly when nothing is left
    after stripping.  The row of a successful submission carries the
    username as it was entered, white space included, and so does the
    saved file. *)
Theorem C10_username_recorded_unstripped env sub lb raw y w :
  let w' := fst (handle_submission env sub lb raw y w) in
  (submit sub = true ->
   is_Some (uploaded_file sub) ->
   (notices w' = notices w ++ [MissingUsername]
    <-> Py.strip (username sub) = EmptyString))
  /\ (forall acc,
        notices w' = notices w ++ [Evaluated acc] ->
        tmpname env <> LEADERBOARD_FILE ->
        Py.strip (username sub) <> EmptyString
        /\ exists row,
             snd (handle_submission env sub lb raw y w) = Ok (lb ++ [row])
             /\ Username row = Str (username sub)
             /\ files w' !! LEADERBOARD_FILE
                = Some (Csv.to_csv (lb ++ [row]))).
Proof.
  intros w'.
  pose proof (handle_submission_outcome env sub lb raw y w) as Hout.
  fold w' in Hout. clearbody w'.
  remember (snd (handle_submission env sub lb raw y w)) as r eqn:Er.
  clear Er.
  inversion Hout as
    [ Hs | Hs Hu | u Hs Hu Hn' | u e Hs Hu Hn' Hl
    | u m Hs Hu Hn' Hl Ha' | u m Hs Hu Hn' Hl Ha' Hnn
    | u m e Hs Hu Hn' Hl Ha' He
    | u m acc' Hs Hu Hn' Hl Ha' He lb'' ];
    subst w' r; simpl; split.
  all: try (intros acc H Htmp; apply list_snoc_inj in H; discriminate).
  all: try (intros _ [v Hv]; split; intros H;
            [apply list_snoc_inj in H; discriminate|congruence]).
  - intros Hs'. congruence.
  - intros acc H _. now apply list_snoc_neq in H.
  - intros _ _. now split.
  - intros acc H Htmp. split; [trivial|]. subst lb''.
    exists (new_row (username sub) acc' (strftime (now env))).
    repeat split.
    rewrite lookup_delete_ne by exact Htmp. apply lookup_insert_eq.
Qed.

Lemma C10_username_witness :
  let sub := mkSubmission " bob " (Some "square") true in
  Py.strip (username sub) <> EmptyString
  /\ exists row,
       snd (handle_submission Demo.demo_env sub [Demo.bob_row]
              Demo.raw_images Demo.y_test Demo.empty_world)
       = Ok ([Demo.bob_row] ++ [row])
       /\ Username row = Str " bob "
       /\ files (fst (handle_submission Demo.demo_env sub [Demo.bob_row]
                        Demo.raw_images Demo.y_test Demo.empty_world))
          !! LEADERBOARD_FILE
          = Some (Csv.to_csv ([Demo.bob_row] ++ [row])).
Proof.
  intros sub.
  apply (C10_username_recorded_unstripped Demo.demo_env sub [Demo.bob_row]
           Demo.raw_images Demo.y_test Demo.empty_world)
    with (acc := Py.float64 (1 # 3)).
  - reflexivity.
  - vm_compute. discriminate.
Defined.

(** ** The leaderboard store *)

(* strings *)
Lemma append_cons c (a b : string) : String c a +:+ b = String c (a +:+ b).
Proof. reflexivity. Qed.

Lemma append_nil_l (b : string) : EmptyString +:+ b = b.
Proof. reflexivity. Qed.

Ltac push_append := rewrite ?append_cons, ?append_nil_l.

Lemma append_assoc (a b c : string) : (a +:+ b) +:+ c = a +:+ (b +:+ c).
Proof.
  induction a as [|x a IH]; push_append; [reflexivity|now rewrite IH].
Qed.


Lemma forallb_str_app p a b :
  Py.forallb_str p (a +:+ b) = Py.forallb_str p a && Py.forallb_str p b.
Proof.
  induction a as [|x a IH]; push_append; simpl; [reflexivity|].
  now rewrite IH, andb_assoc.
Qed.

(** A text of ordinary characters is written without quotes. *)
Lemma ordinary_unquoted s :
  Py.forallb_str ordinary s = true -> Csv.needs_quoting s = false.
Proof.
  unfold Csv.needs_quoting.
  induction s as [|c s IH]; cbn [Py.forallb_str Py.existsb_str];
    [reflexivity|].
  unfold ordinary at 1, Csv.is_terminator.
  destruct (Ascii.eqb c Csv.COMMA), (Ascii.eqb c Csv.DQUOTE),
    (Ascii.eqb c Csv.LF), (Ascii.eqb c Csv.CR); simpl;
    try discriminate; exact IH.
Qed.

(** A text written without quotes is made of ordinary characters, unless it
    holds a carriage return. *)
Lemma unquoted_ordinary s :
  Csv.needs_quoting s = false -> no_CR s ->
  Py.forallb_str ordinary s = true.
Proof.
  unfold Csv.needs_quoting, no_CR.
  induction s as [|c s IH]; cbn [Py.forallb_str Py.existsb_str];
    [reflexivity|].
  unfold ordinary at 1, Csv.is_terminator.
  destruct (Ascii.eqb c Csv.COMMA), (Ascii.eqb c Csv.DQUOTE),
    (Ascii.eqb c Csv.LF), (Ascii.eqb c Csv.CR); simpl;
    try discriminate; exact IH.
Qed.


Lemma close_field_rev s :
  Csv.close_field (rev (list_ascii_of_string s)) = s.
Proof.
  unfold Csv.close_field. rewrite rev_involutive.
  apply string_of_list_ascii_of_string.
Qed.

Lemma step_ordinary st c :
  ordinary c = true -> scanning st ->
  exists st', Csv.step st c = Csv.Push st' /\ scanning st'
              /\ (in_record st -> in_record st').
Proof.
  unfold ordinary. rewrite negb_true_iff, !orb_false_iff.
  intros [[Hc Hq] Ht] Hst.
  unfold scanning, in_record in *.
  destruct Hst as [-> | [-> | [-> | ->]]]; simpl;
    unfold Csv.step_start_field, Csv.step_in_field; rewrite ?Ht, ?Hc, ?Hq;
    try destruct (Csv.is_blank c); eexists; (split; [reflexivity|]);
    split; try tauto; intros [?|?]; try discriminate; tauto.
Qed.

Lemma scan_unquoted s : forall st field record,
  Py.forallb_str ordinary s = true -> scanning st ->
  exists st',
    scanning st' /\ (in_record st -> in_record st')
    /\ forall rest,
         Csv.tokenize st field record (s +:+ rest)
         = Csv.tokenize st' (rev (list_ascii_of_string s) ++ field) record rest.
Proof.
  induction s as [|c s IH]; intros st field record Hs Hst.
  - exists st. repeat split; tauto.
  - simpl in Hs. apply andb_true_iff in Hs as [Hc Hs].
    destruct (step_ordinary st c Hc Hst) as (st1 & Hstep & Hst1 & Hrec1).
    destruct (IH st1 (c :: field) record Hs Hst1) as (st' & Hst' & Hrec' & Htok).
    exists st'. repeat split; [tauto|tauto|].
    intros rest. push_append. simpl. rewrite Hstep, Htok.
    now rewrite <- app_assoc.
Qed.

Lemma scan_quoted s : forall field record rest,
  Csv.tokenize Csv.IN_QUOTED_FIELD field record (Csv.double_quotes s +:+ rest)
  = Csv.tokenize Csv.IN_QUOTED_FIELD
      (rev (list_ascii_of_string s) ++ field) record rest.
Proof.
  induction s as [|c s IH]; intros field record rest; [reflexivity|].
  simpl. destruct (Ascii.eqb c Csv.DQUOTE) eqn:E.
  - apply Ascii.eqb_eq in E. subst c. push_append. simpl. rewrite IH.
    now rewrite <- app_assoc.
  - push_append. simpl. rewrite E. rewrite IH. now rewrite <- app_assoc.
Qed.

Lemma step_comma st : scanning st -> Csv.step st Csv.COMMA = Csv.EndField.
Proof. intros [-> | [-> | [-> | ->]]]; reflexivity. Qed.

Lemma step_LF st : in_record st -> Csv.step st Csv.LF = Csv.EndLine.
Proof. intros [-> | ->]; reflexivity. Qed.

(** A written field followed by a comma is read back as the field. *)
Lemma tokenize_field_comma s st record rest :
  no_CR s ->
  st = Csv.START_RECORD \/ st = Csv.START_FIELD ->
  Csv.tokenize st [] record (Csv.write_field s +:+ String Csv.COMMA rest)
  = Csv.tokenize Csv.START_FIELD [] (s :: record) rest.
Proof.
  intros Hcr Hst. unfold Csv.write_field.
  destruct (Csv.needs_quoting s) eqn:Hq.
  - assert (Hstart : Csv.step st Csv.DQUOTE = Csv.Skip Csv.IN_QUOTED_FIELD)
      by (destruct Hst as [-> | ->]; reflexivity).
    push_append. cbn [Csv.tokenize]. rewrite Hstart.
    rewrite append_assoc, scan_quoted. push_append. simpl.
    now rewrite app_nil_r, close_field_rev.
  - apply unquoted_ordinary in Hq; [|exact Hcr].
    destruct (scan_unquoted s st [] record Hq) as (st' & Hst' & _ & Htok).
    { unfold scanning. tauto. }
    rewrite Htok. simpl. rewrite (step_comma st' Hst').
    now rewrite app_nil_r, close_field_rev.
Qed.

(** A written field followed by a line feed closes the record. *)
Lemma tokenize_field_LF s record rest :
  no_CR s ->
  Csv.tokenize Csv.START_FIELD [] record
    (Csv.write_field s +:+ String Csv.LF rest)
  = match Csv.tokenize Csv.START_RECORD [] [] rest with
    | Some rows => Some (rev (s :: record) :: rows)
    | None => None
    end.
Proof.
  intros Hcr. unfold Csv.write_field.
  destruct (Csv.needs_quoting s) eqn:Hq.
  - assert (Hstart : Csv.step Csv.START_FIELD Csv.DQUOTE
                     = Csv.Skip Csv.IN_QUOTED_FIELD) by reflexivity.
    push_append. cbn [Csv.tokenize]. rewrite Hstart.
    rewrite append_assoc, scan_quoted. push_append. simpl.
    now rewrite app_nil_r, close_field_rev.
  - apply unquoted_ordinary in Hq; [|exact Hcr].
    destruct (scan_unquoted s Csv.START_FIELD [] record Hq)
      as (st' & _ & Hst' & Htok).
    { unfold scanning. tauto. }
    rewrite Htok. simpl. rewrite (step_LF st'); [|apply Hst'; now left].
    now rewrite app_nil_r, close_field_rev.
Qed.

(** A written line of three fields is read back as one record. *)
Lemma tokenize_line a b c rest :
  no_CR a -> no_CR b -> no_CR c ->
  Csv.tokenize Csv.START_RECORD [] []
    (Csv.write_line [Csv.write_field a; Csv.write_field b; Csv.write_field c]
     +:+ rest)
  = match Csv.tokenize Csv.START_RECORD [] [] rest with
    | Some rows => Some ([a; b; c] :: rows)
    | None => None
    end.
Proof.
  intros Ha Hb Hc. unfold Csv.write_line. cbn [Py.join].
  rewrite !append_assoc. push_append.
  rewrite tokenize_field_comma by tauto.
  rewrite tokenize_field_comma by tauto.
  now rewrite tokenize_field_LF.
Qed.

Lemma string_of_uint_digits d :
  Py.forallb_str is_digit (NilEmpty.string_of_uint d) = true.
Proof. induction d; simpl; trivial. Qed.

Lemma str_N_digits n : Py.forallb_str is_digit (Py.str_N n) = true.
Proof. apply string_of_uint_digits. Qed.

Lemma digits_value_str_N n : Py.digits_value (Py.str_N n) = n.
Proof.
  unfold Py.digits_value, Py.str_N. rewrite NilEmpty.usu.
  apply DecimalN.Unsigned.of_to.
Qed.

Lemma split_dot_digits a b :
  Py.forallb_str is_digit a = true ->
  Csv.split_dot (a +:+ String "."%char b) = Some (a, b).
Proof.
  induction a as [|c a IH]; push_append; simpl; intros H; [reflexivity|].
  apply andb_true_iff in H as [Hc Ha]. rewrite (IH Ha).
  destruct (Ascii.eqb c ".") eqn:E; [|reflexivity].
  apply Ascii.eqb_eq in E. subst c. discriminate.
Qed.

Lemma frac_ok_below_100 fr : (fr < 100)%N -> frac_ok fr = true.
Proof.
  intros H.
  assert (Hall : forallb frac_ok (map N.of_nat (seq 0 100)) = true)
    by (vm_compute; reflexivity).
  rewrite forallb_forall in Hall. apply Hall.
  apply in_map_iff. exists (N.to_nat fr). split; [apply N2Nat.id|].
  apply in_seq. lia.
Qed.

Lemma str_hundredths_nonneg h :
  (0 <= h)%Z ->
  Py.str_hundredths h
  = Py.str_N (Z.to_N h / 100)
    +:+ String "."%char (Py.str_frac (Z.to_N h mod 100)).
Proof.
  intros H. unfold Py.str_hundredths.
  assert (E : (h <? 0)%Z = false) by (apply Z.ltb_ge; lia).
  rewrite E. push_append.
  replace (Z.abs_N h) with (Z.to_N h) by (destruct h; try reflexivity; lia).
  reflexivity.
Qed.

(** No token of the missing value is a numeral. *)
Lemma NA_VALUES_not_numerals :
  forallb (fun t => negb (is_some (Csv.parse_hundredths t))) Csv.NA_VALUES
  = true.
Proof. vm_compute. reflexivity. Qed.

(** A printed number of hundredths is read back as the same number. *)
Lemma parse_str_hundredths h :
  (0 <= h < 10 ^ 15)%Z ->
  Csv.parse_hundredths (Py.str_hundredths h) = Some h.
Proof.
  intros [H0 H1]. unfold Csv.parse_hundredths.
  rewrite (str_hundredths_nonneg h H0) at 1.
  rewrite split_dot_digits by apply str_N_digits.
  rewrite digits_value_str_N.
  assert (Hfr : (Z.to_N h mod 100 < 100)%N) by (apply N.mod_lt; lia).
  pose proof (frac_ok_below_100 _ Hfr) as Hok.
  unfold frac_ok in Hok. apply andb_true_iff in Hok as [Hv _].
  apply N.eqb_eq in Hv. rewrite Hv.
  assert (Hh : Z.of_N (Z.to_N h / 100 * 100 + Z.to_N h mod 100) = h).
  { rewrite N.mul_comm, <- N.div_mod by lia. apply Z2N.id. lia. }
  rewrite Hh. rewrite String.eqb_refl.
  assert (E : (h <? 10 ^ 15)%Z = true) by (apply Z.ltb_lt; lia).
  now rewrite E.
Qed.

Lemma digit_numeric c :
  numeral_char c = true -> Py.mem_char c Csv.NUMERIC_CHARS = true.
Proof.
  destruct c as [[] [] [] [] [] [] [] []]; vm_compute; trivial.
Qed.

Lemma forallb_str_impl (p q : ascii -> bool) s :
  (forall c, p c = true -> q c = true) ->
  Py.forallb_str p s = true -> Py.forallb_str q s = true.
Proof.
  intros Hpq. induction s as [|c s IH]; simpl; [trivial|].
  rewrite !andb_true_iff. intros [Hc Hs]. auto.
Qed.

Lemma str_hundredths_numeral h :
  Py.forallb_str numeral_char (Py.str_hundredths h) = true.
Proof.
  unfold Py.str_hundredths.
  assert (Hd : forall s, Py.forallb_str is_digit s = true ->
                         Py.forallb_str numeral_char s = true).
  { intros s. apply forallb_str_impl. intros c Hc. unfold numeral_char.
    now rewrite Hc. }
  rewrite !forallb_str_app.
  assert (Hfr : (Z.abs_N h mod 100 < 100)%N) by (apply N.mod_lt; lia).
  pose proof (frac_ok_below_100 _ Hfr) as Hok.
  unfold frac_ok in Hok. apply andb_true_iff in Hok as [_ Hf].
  rewrite (Hd _ (str_N_digits _)), (Hd _ Hf).
  now destruct (h <? 0)%Z.
Qed.

Lemma forallb_existsb_str p s :
  Py.forallb_str p s = true ->
  Py.existsb_str (fun c => negb (p c)) s = false.
Proof.
  induction s as [|c s IH]; simpl; [trivial|].
  rewrite andb_true_iff. intros [Hc Hs]. now rewrite Hc, IH.
Qed.

(** Text that is plainly text is not a numeral. *)
Lemma plain_text_not_numeral s :
  Csv.plain_text s = true -> Csv.parse_hundredths s = None.
Proof.
  intros Hp. unfold Csv.parse_hundredths.
  destruct (Csv.split_dot s) as [[ip fp]|]; [|reflexivity].
  match goal with |- (if ?b then _ else _) = _ => destruct b eqn:E end;
    [|reflexivity].
  apply andb_true_iff in E as [E _]. apply String.eqb_eq in E.
  rewrite <- E in Hp. unfold Csv.plain_text in Hp.
  apply andb_true_iff in Hp as [_ Hp].
  rewrite forallb_existsb_str in Hp; [discriminate|].
  eapply forallb_str_impl; [|apply str_hundredths_numeral].
  apply digit_numeric.
Qed.

Lemma str_hundredths_unquoted h :
  Csv.write_field (Py.str_hundredths h) = Py.str_hundredths h.
Proof.
  unfold Csv.write_field.
  assert (E : Csv.needs_quoting (Py.str_hundredths h) = false).
  { apply ordinary_unquoted.
    eapply forallb_str_impl; [|apply str_hundredths_numeral].
    intros c. destruct c as [[] [] [] [] [] [] [] []]; vm_compute; trivial. }
  now rewrite E.
Qed.

Lemma numeral_no_CR s :
  Py.forallb_str numeral_char s = true -> no_CR s.
Proof.
  intros H. unfold no_CR.
  induction s as [|c s IH]; cbn [Py.forallb_str Py.existsb_str] in *;
    [reflexivity|].
  apply andb_true_iff in H as [Hc Hs]. rewrite (IH Hs), orb_false_r.
  destruct c as [[] [] [] [] [] [] [] []]; vm_compute in Hc |- *;
    trivial; discriminate.
Qed.

Lemma str_hundredths_no_CR h : no_CR (Py.str_hundredths h).
Proof. apply numeral_no_CR, str_hundredths_numeral. Qed.

Lemma filter_present_all toks :
  Forall (fun t => Csv.is_na t = false) toks ->
  List.filter (fun t => negb (Csv.is_na t)) toks = toks.
Proof.
  induction 1 as [|t toks Ht _ IH]; simpl; [reflexivity|].
  now rewrite Ht, IH.
Qed.

Lemma infer_column_text toks :
  Forall text_ok toks ->
  Csv.infer_column toks = Some (map Str toks).
Proof.
  intros H. unfold Csv.infer_column.
  rewrite filter_present_all
    by (eapply Forall_impl; [exact H|]; now intros t [Hna _]).
  destruct H as [|t toks (Hna & Hp & _) H]; [reflexivity|].
  cbn [forallb existsb]. rewrite (plain_text_not_numeral t Hp), Hp. simpl.
  rewrite Hna. do 2 f_equal.
  induction H as [|t' toks' [Hna' _] _ IH]; simpl; [reflexivity|].
  now rewrite Hna', IH.
Qed.

Lemma forallb_filter_keep {A} (p q : A -> bool) l :
  forallb p l = true -> forallb p (List.filter q l) = true.
Proof.
  induction l as [|x l IH]; simpl; [trivial|].
  rewrite andb_true_iff. intros [Hx Hl].
  destruct (q x); simpl; [rewrite Hx|]; auto.
Qed.

Lemma infer_column_numbers hs :
  Forall (fun h => (0 <= h < 10 ^ 15)%Z) hs ->
  Csv.infer_column (map Py.str_hundredths hs) = Some (map Num hs).
Proof.
  intros H. unfold Csv.infer_column.
  assert (Hall : forallb (fun t => is_some (Csv.parse_hundredths t))
                   (map Py.str_hundredths hs) = true).
  { induction H as [|h hs Hh _ IH]; simpl; [reflexivity|].
    now rewrite (parse_str_hundredths h Hh), IH. }
  rewrite (forallb_filter_keep _ _ _ Hall). f_equal.
  induction H as [|h hs Hh H IH]; simpl; [reflexivity|].
  rewrite (parse_str_hundredths h Hh). f_equal. apply IH.
  simpl in Hall. now apply andb_true_iff in Hall as [_ Hall].
Qed.

Lemma row_ok_write r :
  row_ok r ->
  Csv.write_row r
  = Csv.write_line (map Csv.write_field (row_tokens r)).
Proof.
  intros (u & h & t & -> & _). unfold Csv.write_row, row_tokens. simpl.
  now rewrite str_hundredths_unquoted.
Qed.

Lemma tokenize_rows T :
  Forall row_ok T ->
  Csv.tokenize Csv.START_RECORD [] [] (Csv.write_rows T)
  = Some (map row_tokens T).
Proof.
  induction 1 as [|r T Hr _ IH]; [reflexivity|].
  cbn [Csv.write_rows map]. rewrite (row_ok_write r Hr).
  destruct Hr as (u & h & t & -> & (_ & _ & Hu) & _ & (_ & _ & Ht)).
  unfold row_tokens at 1. cbn [map cell_text Username Accuracy Timestamp].
  rewrite tokenize_line by (trivial; apply str_hundredths_no_CR).
  now rewrite IH.
Qed.

Lemma columns3_rows T :
  Csv.columns3 (map row_tokens T)
  = Some (map (fun r => cell_text (Username r)) T,
          map (fun r => cell_text (Accuracy r)) T,
          map (fun r => cell_text (Timestamp r)) T).
Proof.
  induction T as [|r T IH]; [reflexivity|].
  cbn [map]. unfold row_tokens at 1. cbn [Csv.columns3]. now rewrite IH.
Qed.

(** Loading what was saved gives the table back, for a table whose
    usernames and timestamps are plainly text, none of them a token pandas
    reads as missing or a text with a carriage return, and whose accuracies
    are numbers of hundredths. *)
Theorem read_csv_to_csv T :
  Forall row_ok T -> Csv.read_csv (Csv.to_csv T) = Some T.
Proof.
  intros H. unfold Csv.read_csv, Csv.to_csv. cbn [COLUMNS map].
  rewrite tokenize_line by reflexivity. rewrite (tokenize_rows T H).
  rewrite bool_decide_eq_true_2 by reflexivity.
  rewrite columns3_rows.
  assert (Hu : Csv.infer_column (map (fun r => cell_text (Username r)) T)
               = Some (map Username T)).
  { replace (map Username T)
      with (map Str (map (fun r => cell_text (Username r)) T)).
    - apply infer_column_text. rewrite Forall_map.
      eapply Forall_impl; [exact H|].
      intros r (u & h & t & -> & Hu & _). exact Hu.
    - rewrite map_map. apply map_ext_Forall.
      eapply Forall_impl; [exact H|]. now intros r (u & h & t & -> & _). }
  assert (Ha : Csv.infer_column (map (fun r => cell_text (Accuracy r)) T)
               = Some (map Accuracy T)).
  { assert (E : exists hs,
                 map (fun r => cell_text (Accuracy r)) T
                 = map Py.str_hundredths hs
                 /\ map Accuracy T = map Num hs
                 /\ Forall (fun h => (0 <= h < 10 ^ 15)%Z) hs).
    { clear Hu. induction H as [|r T (u & h & t & -> & _ & Hh & _) _ IH].
      - exists []. repeat split. constructor.
      - destruct IH as (hs & E1 & E2 & E3). exists (h :: hs). simpl.
        rewrite E1, E2. repeat split. now constructor. }
    destruct E as (hs & -> & -> & Hhs). now apply infer_column_numbers. }
  assert (Ht : Csv.infer_column (map (fun r => cell_text (Timestamp r)) T)
               = Some (map Timestamp T)).
  { replace (map Timestamp T)
      with (map Str (map (fun r => cell_text (Timestamp r)) T)).
    - apply infer_column_text. rewrite Forall_map.
      eapply Forall_impl; [exact H|].
      intros r (u & h & t & -> & _ & _ & Ht). exact Ht.
    - rewrite map_map. apply map_ext_Forall.
      eapply Forall_impl; [exact H|]. now intros r (u & h & t & -> & _). }
  rewrite Hu, Ha, Ht. f_equal.
  clear. induction T as [|[u a t] T IH]; simpl; [reflexivity|now rewrite IH].
Qed.

Lemma save_then_read df w :
  files (fst (save_leaderboard df w)) !! LEADERBOARD_FILE
  = Some (Csv.to_csv df).
Proof. unfold save_leaderboard, write_file. simpl. apply lookup_insert_eq. Qed.

(** Without a file the store gives the empty table. *)
Lemma load_leaderboard_no_file w :
  files w !! LEADERBOARD_FILE = None -> load_leaderboard w = (w, Ok []).
Proof.
  intros H. unfold load_leaderboard, bind, os_path_exists. simpl.
  rewrite H. rewrite bool_decide_eq_false_2; [reflexivity|].
  intros [v Hv]. discriminate.
Qed.







(** With a file the store parses its content. *)
Lemma load_leaderboard_file w content :
  files w !! LEADERBOARD_FILE = Some content ->
  load_leaderboard w
  = (w, match Csv.read_csv content with
        | Some df => Ok df
        | None => Raise "ParserError"
        end).
Proof.
  intros H. unfold load_leaderboard, bind, os_path_exists.
  cbn [fst snd]. rewrite H. rewrite bool_decide_eq_true_2 by eauto.
  rewrite H. now destruct (Csv.read_csv content).
Qed.

(** Loading after saving gives the table back, on the tables of
    [row_ok] rows. *)
Lemma load_after_save T w :
  Forall row_ok T ->
  snd (load_leaderboard (fst (save_leaderboard T w))) = Ok T.
Proof.
  intros H.
  rewrite (load_leaderboard_file _ (Csv.to_csv T)) by apply save_then_read.
  cbn [snd]. now rewrite read_csv_to_csv.
Qed.

(** Saving what was loaded leaves the file as it was, when the file is the
    saved form of a table of [row_ok] rows. *)
Lemma save_after_load T w :
  Forall row_ok T ->
  files w !! LEADERBOARD_FILE = Some (Csv.to_csv T) ->
  files (fst ((let! df := load_leaderboard in save_leaderboard df) w))
  !! LEADERBOARD_FILE
  = files w !! LEADERBOARD_FILE.
Proof.
  intros H Hf. unfold bind.
  rewrite (load_leaderboard_file _ _ Hf), read_csv_to_csv by exact H.
  rewrite save_then_read. now rewrite Hf.
Qed.

(** The saved form of a table of two rows as two successful submissions
    leave them, the second by a user called NA. *)
Example table_with_NA_saved :
  Csv.to_csv [Demo.bob_row; new_row "NA" (3 # 4) "2024-05-17 09:30:00"]
  = "Username,Accuracy,Timestamp" +:+ String Csv.LF
      ("bob,99.5,2024-05-16 18:00:00" +:+ String Csv.LF
         ("NA,75.0,2024-05-17 09:30:00" +:+ String Csv.LF EmptyString)).
Proof. reflexivity. Qed.

(** C6, at a table that holds the row of a user called NA.  The file that
    [save_leaderboard] writes for it is read back with the missing value
    in place of the username, so load after save does not give the table
    back; and saving what was loaded writes an empty Username field, so
    save after load changes the content of a file that the application
    wrote itself. *)
Theorem C6_NA_username_lost_by_round_trip :
  let na_row := new_row "NA" (3 # 4) "2024-05-17 09:30:00" in
  let T := [Demo.bob_row; na_row] in
  let w := fst (save_leaderboard T Demo.empty_world) in
  let reloaded := [Demo.bob_row; mkRow NaN (Accuracy na_row) (Timestamp na_row)] in
  snd (load_leaderboard w) = Ok reloaded
  /\ reloaded <> T
  /\ files (fst (save_leaderboard reloaded w)) !! LEADERBOARD_FILE
     <> files w !! LEADERBOARD_FILE.
Proof.
  vm_compute. repeat split; discriminate.
Qed.

(** ** Further properties of the code *)

(** *** The order of file names *)

Lemma ascii_compare_refl a : Ascii.compare a a = Eq.
Proof. unfold Ascii.compare. apply N.compare_refl. Qed.

Lemma ascii_compare_lt_trans a b c :
  Ascii.compare a b = Lt -> Ascii.compare b c = Lt -> Ascii.compare a c = Lt.
Proof.
  unfold Ascii.compare. rewrite !N.compare_lt_iff. lia.
Qed.

Lemma string_compare_refl s : String.compare s s = Eq.
Proof.
  induction s as [|c s IH]; simpl; [reflexivity|].
  now rewrite ascii_compare_refl.
Qed.

Lemma string_compare_lt_trans s1 : forall s2 s3,
  String.compare s1 s2 = Lt -> String.compare s2 s3 = Lt ->
  String.compare s1 s3 = Lt.
Proof.
  induction s1 as [|a s1 IH]; intros [|b s2] [|c s3]; simpl;
    try discriminate; try reflexivity.
  destruct (Ascii.compare a b) eqn:Eab; try discriminate.
  - apply Ascii.compare_eq_iff in Eab. subst b.
    destruct (Ascii.compare a c); try discriminate; [apply IH|reflexivity].
  - destruct (Ascii.compare b c) eqn:Ebc; try discriminate.
    + apply Ascii.compare_eq_iff in Ebc. subst c. now rewrite Eab.
    + now rewrite (ascii_compare_lt_trans a b c Eab Ebc).
Qed.

Lemma string_leb_cases s1 s2 :
  String.leb s1 s2 = true <-> s1 = s2 \/ String.compare s1 s2 = Lt.
Proof.
  unfold String.leb. destruct (String.compare s1 s2) eqn:E.
  - apply String.compare_eq_iff in E. tauto.
  - tauto.
  - split; [discriminate|]. intros [->|H]; [|discriminate].
    rewrite string_compare_refl in E. discriminate.
Qed.

Lemma name_le_trans a b c : name_le a b -> name_le b c -> name_le a c.
Proof.
  unfold name_le. rewrite !string_leb_cases.
  intros [->|H1] [->|H2]; auto.
  right. eapply string_compare_lt_trans; eauto.
Qed.

Lemma name_le_antisym a b : name_le a b -> name_le b a -> a = b.
Proof. unfold name_le. apply String.leb_antisym. Qed.

(** A sorted list is determined by its elements. *)
Lemma sorted_unique l1 : forall l2,
  StronglySorted name_le l1 -> StronglySorted name_le l2 ->
  Permutation l1 l2 -> l1 = l2.
Proof.
  induction l1 as [|x l1 IH]; intros l2 H1 H2 Hp.
  - now apply Permutation_nil in Hp.
  - destruct l2 as [|y l2].
    { symmetry in Hp. now apply Permutation_nil in Hp. }
    inversion H1 as [|? ? H1' Hx]; subst.
    inversion H2 as [|? ? H2' Hy]; subst.
    assert (Hxy : x = y).
    { assert (Hin1 : In x (y :: l2))
        by (eapply Permutation_in; [exact Hp|now left]).
      assert (Hin2 : In y (x :: l1))
        by (eapply Permutation_in; [symmetry; exact Hp|now left]).
      destruct Hin1 as [->|Hin1]; [reflexivity|].
      destruct Hin2 as [->|Hin2]; [reflexivity|].
      rewrite Forall_forall in Hx, Hy.
      apply name_le_antisym.
      - apply Hx. now apply list_elem_of_In.
      - apply Hy. now apply list_elem_of_In. }
    subst y. f_equal. apply IH; trivial.
    now apply Permutation_cons_inv in Hp.
Qed.

Lemma sorted_StronglySorted l : StronglySorted name_le (Py.sorted l).
Proof.
  apply Sorted_StronglySorted.
  - intros a b c. apply name_le_trans.
  - apply sorted_Sorted.
Qed.

(** [sorted] gives the same list for every order of the same names. *)
Lemma sorted_permutation l l' :
  Permutation l l' -> Py.sorted l = Py.sorted l'.
Proof.
  intros H. apply sorted_unique; try apply sorted_StronglySorted.
  rewrite <- (sorted_perm l), <- (sorted_perm l'). exact H.
Qed.

(** *** More on the test-set loader *)

Lemma load_files_opens st folder idx fnames acc acc' :
  load_files st folder idx fnames acc = Some acc' ->
  Forall (fun f => is_Some (image_open st (Py.os_path_join folder f))) fnames.
Proof.
  revert acc. induction fnames as [|f fnames IH]; simpl; intros acc H.
  - constructor.
  - destruct (image_open st (Py.os_path_join folder f)) as [raw|] eqn:Hopen;
      [|discriminate].
    constructor; [eauto|]. eapply IH. exact H.
Qed.

Lemma load_classes_lists st classes acc acc' :
  load_classes st classes acc = Some acc' ->
  Forall (fun ic => is_Some (listdir st (class_folder (snd ic)))) classes
  /\ Forall (fun v => is_Some (image_open st (fst v)))
       (visits (listing st) classes).
Proof.
  revert acc. induction classes as [|[idx cls] classes IH]; simpl; intros acc H.
  - split; constructor.
  - unfold listing at 1. fold (class_folder cls) in *.
    destruct (listdir st (class_folder cls)) as [fnames|] eqn:Hls;
      [|discriminate]. simpl.
    destruct (load_files st _ idx (Py.sorted fnames) acc) as [acc1|] eqn:Hf;
      [|discriminate].
    apply load_files_opens in Hf. apply IH in H as [H1 H2].
    split.
    + constructor; [simpl; rewrite Hls; eauto|exact H1].
    + apply Forall_app. split; [|exact H2]. now rewrite Forall_map.
Qed.

Lemma load_classes_total st classes acc :
  Forall (fun ic => is_Some (listdir st (class_folder (snd ic)))) classes ->
  Forall (fun v => is_Some (image_open st (fst v)))
    (visits (listing st) classes) ->
  is_Some (load_classes st classes acc).
Proof.
  revert acc. induction classes as [|[idx cls] classes IH]; simpl;
    intros acc Hls Hop.
  - eauto.
  - inversion Hls as [|? ? [fnames Hf] Hls']; subst. simpl in Hf.
    unfold listing in Hop at 1. fold (class_folder cls) in *.
    rewrite Hf in *. simpl in Hop.
    apply Forall_app in Hop as [Hop1 Hop2].
    destruct (load_files_total st (class_folder cls) idx
                (Py.sorted fnames) acc) as [acc1 Hacc1].
    { rewrite Forall_map in Hop1. exact Hop1. }
    rewrite Hacc1. now apply IH.
Qed.

(** X1. The loader returns exactly when every class folder can be listed and
    every file of these folders can be decoded: one unreadable entry makes
    the whole load fail. *)
Theorem loader_returns_iff_all_readable st :
  is_Some (load_raw_test_images st)
  <-> Forall (fun cls => is_Some (listdir st (class_folder cls))) CLASS_NAMES
      /\ Forall (fun v => is_Some (image_open st (fst v)))
           (visits (listing st) (Py.enumerate CLASS_NAMES)).
Proof.
  unfold load_raw_test_images. split.
  - intros [r H]. apply load_classes_lists in H as [H1 H2].
    split; [|exact H2]. clear H2.
    cbv [Py.enumerate Py.enumerate_from CLASS_NAMES] in H1 |- *.
    repeat match goal with
           | H : Forall _ (_ :: _) |- _ => inversion H; clear H; subst
           end.
    repeat constructor; assumption.
  - intros [H1 H2]. apply load_classes_total; [|exact H2]. clear H2.
    cbv [Py.enumerate Py.enumerate_from CLASS_NAMES] in H1 |- *.
    repeat match goal with
           | H : Forall _ (_ :: _) |- _ => inversion H; clear H; subst
           end.
    repeat constructor; assumption.
Qed.

Lemma length_sorted l : List.length (Py.sorted l) = List.length l.
Proof. symmetry. apply Permutation_length, sorted_perm. Qed.

(** X2. The loader takes every entry of the three folders once: the labels are
    as many 0s as folder A has entries, then as many 1s as B has, then as
    many 2s as C has, and there is one image per label. *)
Theorem loader_takes_every_entry_once st images labels :
  load_raw_test_images st = Some (images, labels) ->
  let n cls := List.length (listing st (class_folder cls)) in
  labels = replicate (n "A") 0 ++ replicate (n "B") 1 ++ replicate (n "C") 2
  /\ List.length images = n "A" + n "B" + n "C".
Proof.
  intros H n.
  apply load_classes_spec in H as (imgs & Hdec & Heq).
  simpl in Heq. inversion Heq; subst images labels. clear Heq.
  apply Forall2_length in Hdec.
  assert (Hrep : forall (l : list string) (folder : string) (k : nat),
             map snd (map (fun f => (Py.os_path_join folder f, k)) l)
             = replicate (List.length l) k).
  { intros l folder k. induction l as [|f l IH]; simpl; [reflexivity|].
    now rewrite IH. }
  unfold visits in *. simpl in *. rewrite app_nil_r in *.
  rewrite !map_app, !Hrep, !length_sorted.
  split; [reflexivity|].
  rewrite <- Hdec, !length_app, !length_map, !length_sorted. unfold n.
  unfold class_folder. simpl. lia.
Qed.

Lemma load_files_ext st st' folder idx fnames acc :
  (forall path, image_open st path = image_open st' path) ->
  load_files st folder idx fnames acc = load_files st' folder idx fnames acc.
Proof.
  intros Hop. revert acc. induction fnames as [|f fnames IH]; simpl;
    intros acc; [reflexivity|].
  rewrite Hop. destruct (image_open st' _); [apply IH|reflexivity].
Qed.

(** X3. The result of the loader does not depend on the order in which
    [os.listdir] gives the entries of a folder. *)
Theorem loader_ignores_listing_order st st' :
  same_tree st st' ->
  load_raw_test_images st = load_raw_test_images st'.
Proof.
  intros [Hop Hls]. unfold load_raw_test_images.
  generalize ([] : list PILImage, [] : list nat).
  generalize (Py.enumerate CLASS_NAMES).
  induction l as [|[idx cls] classes IH]; simpl; intros acc; [reflexivity|].
  specialize (Hls (Py.os_path_join TEST_IMAGE_DIR cls)).
  destruct (listdir st _) as [l|], (listdir st' _) as [l'|];
    try contradiction; [|reflexivity].
  rewrite (sorted_permutation l l' Hls).
  rewrite (load_files_ext st st') by exact Hop.
  destruct (load_files st' _ idx (Py.sorted l') acc); [apply IH|reflexivity].
Qed.

Lemma loader_ignores_listing_order_witness :
  load_raw_test_images (tree_with_A ["z.png"; "a.png"; "m.png"])
  = load_raw_test_images (tree_with_A ["a.png"; "m.png"; "z.png"]).
Proof.
  apply loader_ignores_listing_order. split; [reflexivity|].
  intros folder. simpl.
  destruct (String.eqb folder "test_images/A").
  - rewrite (Permutation_app_comm ["z.png"] ["a.png"; "m.png"]). reflexivity.
  - destruct (Demo.demo_listdir folder); [reflexivity|exact I].
Defined.

Lemma loader_takes_every_entry_witness :
  let st := tree_with_A ["z.png"; "a.png"; "m.png"] in
  let n cls := List.length (listing st (class_folder cls)) in
  [0; 0; 0; 1; 2]
  = replicate (n "A") 0 ++ replicate (n "B") 1 ++ replicate (n "C") 2
  /\ List.length (replicate 5 (mkImage 640 480 3 0)) = n "A" + n "B" + n "C".
Proof.
  intros st.
  assert (E : load_raw_test_images st
              = Some ([mkImage 640 480 3 0; mkImage 640 480 3 0;
                       mkImage 640 480 3 0; mkImage 640 480 3 1;
                       mkImage 640 480 3 2], [0; 0; 0; 1; 2]))
    by reflexivity.
  pose proof (loader_takes_every_entry_once st _ _ E) as H.
  exact H.
Defined.


(** *** More on the evaluator *)

(** X4. The accuracy the evaluator returns lies between 0 and 1, and the
    percentage recorded for it between 0.0 and 100.0. *)
Theorem accuracy_between_0_and_100 model imgs y size acc :
  evaluate_model model imgs y size = Ok acc ->
  (0 <= acc <= 1)%Q
  /\ forall user timestamp,
       exists h,
         Accuracy (new_row user acc timestamp) = Num h
         /\ (0 <= h <= 10000)%Z.
Proof.
  intros H. apply evaluate_model_range in H. split; [exact H|].
  intros user timestamp.
  exists (Py.round2 (Py.fmul acc 100)). split; [reflexivity|].
  now apply round2_percent_range.
Qed.

Lemma accuracy_between_witness :
  (0 <= Py.float64 (1 # 3) <= 1)%Q
  /\ forall user timestamp,
       exists h,
         Accuracy (new_row user (Py.float64 (1 # 3)) timestamp) = Num h
         /\ (0 <= h <= 10000)%Z.
Proof.
  apply (accuracy_between_0_and_100
           (Demo.constant_model [None; Some 64; Some 64; Some 3]%Z 64 64
              Demo.always_A)
           Demo.raw_images Demo.y_test (Some 64, Some 64)%Z).
  reflexivity.
Defined.

Lemma loaded_images_RGB st images labels :
  load_raw_test_images st = Some (images, labels) ->
  Forall (fun img => im_bands img = 3%Z) images.
Proof.
  intros H. apply load_classes_spec in H as (imgs & Hdec & Heq).
  simpl in Heq. inversion Heq; subst. clear Heq.
  induction Hdec as [|v img vs imgs (raw & _ & ->) _ IH]; constructor;
    [reflexivity|exact IH].
Qed.

(** X5. Whenever the resizing of the loaded test set to a square geometry
    of side n returns, [np.stack] accepts what it returned: the batch
    handed to inference holds one array per test image, each of shape
    (n, n, 3), whatever the bands of the files were. *)
Theorem square_batch_has_declared_shape st images labels n arrays :
  load_raw_test_images st = Some (images, labels) ->
  images <> [] ->
  resized_imgs images (Some n, Some n) = Ok arrays ->
  np_stack arrays = Ok arrays
  /\ List.length arrays = List.length images
  /\ Forall (fun arr => shape arr = [n; n; 3]%Z) arrays.
Proof.
  intros Hload Hne E.
  pose proof (resized_imgs_length _ _ _ E) as Hl.
  pose proof (resized_imgs_geometry _ _ _ _ E) as Hs.
  pose proof (loaded_images_RGB _ _ _ Hload) as Hrgb.
  assert (Hshape : Forall (fun arr => shape arr = [n; n; 3]%Z) arrays).
  { clear E Hl Hne Hload. induction Hs as [|img arr imgs arrs Hs _ IH].
    - constructor.
    - inversion Hrgb as [|? ? Hb Hrest]; subst.
      constructor; [now rewrite Hs, Hb|now apply IH]. }
  repeat split; trivial.
  destruct arrays as [|a0 rest].
  - destruct images; [congruence|discriminate].
  - unfold np_stack. inversion Hshape as [|? ? H0 Hr]; subst.
    assert (Hall : forallb (fun b => shape_eqb (shape b) (shape a0)) rest
                   = true).
    { apply forallb_forall. intros b Hb. unfold shape_eqb.
      apply bool_decide_eq_true. rewrite Forall_forall in Hr.
      rewrite H0. apply Hr. now apply list_elem_of_In. }
    now rewrite Hall.
Qed.

Lemma square_batch_witness :
  let arrays :=
    [mkArray [64; 64; 3]%Z 0; mkArray [64; 64; 3]%Z 1;
     mkArray [64; 64; 3]%Z 2] in
  np_stack arrays = Ok arrays
  /\ List.length arrays = List.length Demo.raw_images
  /\ Forall (fun arr => shape arr = [64; 64; 3]%Z) arrays.
Proof.
  intros arrays.
  apply (square_batch_has_declared_shape Demo.demo_store Demo.raw_images
           Demo.y_test 64 arrays).
  - reflexivity.
  - discriminate.
  - reflexivity.
Defined.

Lemma np_equal_self y :
  np_equal y y = Ok (map (fun _ => true) y).
Proof.
  induction y as [|t y IH]; simpl; [reflexivity|].
  now rewrite IH, Nat.eqb_refl.
Qed.

Lemma count_true_all {A} (y : list A) :
  count_true (map (fun _ => true) y) = List.length y.
Proof.
  unfold count_true. induction y as [|t y IH]; simpl; [reflexivity|].
  now rewrite IH.
Qed.

(** X6. A model whose every prediction is the label of the image is given the
    accuracy 1 and recorded with 100.0. *)
Theorem all_correct_is_recorded_as_100 model imgs y size x preds :
  resized_imgs imgs size = Ok x ->
  np_stack x = Ok x ->
  predict model x = Ok preds ->
  np_argmax preds = Ok y ->
  y <> [] ->
  exists acc,
    evaluate_model model imgs y size = Ok acc
    /\ (acc == 1)%Q
    /\ forall user timestamp,
         Accuracy (new_row user acc timestamp) = Num 10000.
Proof.
  intros Hx Hs Hp Ha Hy. unfold evaluate_model.
  rewrite Hx. simpl. rewrite Hs. simpl. rewrite Hp. simpl.
  rewrite Ha. simpl. rewrite np_equal_self. simpl.
  eexists. split; [reflexivity|].
  assert (E : np_mean (map (fun _ => true) y) = 1%Q).
  { unfold np_mean. rewrite count_true_all, length_map. apply float64_1.
    destruct y as [|t y]; [congruence|].
    unfold Qeq. cbn [Qnum Qden List.length].
    rewrite <- Pos.of_nat_succ, Zpos_P_of_succ_nat. lia. }
  rewrite E. split; [reflexivity|]. intros user timestamp.
  vm_compute. reflexivity.
Qed.

Lemma all_correct_witness :
  exists acc,
    evaluate_model Demo.perfect_model Demo.raw_images Demo.y_test
      (Some 64, Some 64)%Z = Ok acc
    /\ (acc == 1)%Q
    /\ forall user timestamp,
         Accuracy (new_row user acc timestamp) = Num 10000.
Proof.
  eapply (all_correct_is_recorded_as_100 Demo.perfect_model Demo.raw_images
            Demo.y_test (Some 64, Some 64)%Z).
  - reflexivity.
  - reflexivity.
  - reflexivity.
  - reflexivity.
  - discriminate.
Defined.

(** *** The guard on the username *)

Lemma rstrip_empty_iff s :
  Py.rstrip s = EmptyString <-> Py.forallb_str Py.is_space s = true.
Proof.
  induction s as [|c s IH]; simpl; [tauto|].
  destruct (Py.rstrip s) as [|k ks].
  - destruct (Py.is_space c); simpl.
    + split; [intros _; now apply IH|reflexivity].
    + split; discriminate.
  - split; [discriminate|].
    rewrite andb_true_iff. intros [_ H]. apply IH in H. discriminate.
Qed.

Lemma lstrip_spaces s :
  Py.forallb_str Py.is_space (Py.lstrip s)
  = Py.forallb_str Py.is_space s.
Proof.
  induction s as [|c s IH]; simpl; [reflexivity|].
  destruct (Py.is_space c) eqn:E; simpl; [exact IH|now rewrite E].
Qed.

Lemma strip_empty_iff s :
  Py.strip s = EmptyString <-> Py.forallb_str Py.is_space s = true.
Proof. unfold Py.strip. now rewrite rstrip_empty_iff, lstrip_spaces. Qed.

(** X8. With a file attached, a submission is turned down for its username
    exactly when every character of the username is white space (none at
    all included). *)
Theorem username_refused_iff_blank env sub lb raw y w upload :
  submit sub = true ->
  uploaded_file sub = Some upload ->
  notices (fst (handle_submission env sub lb raw y w))
  = notices w ++ [MissingUsername]
  <-> Py.forallb_str Py.is_space (username sub) = true.
Proof.
  intros Hsub Hup. rewrite <- strip_empty_iff.
  pose proof (handle_submission_outcome env sub lb raw y w) as Hout.
  remember (fst (handle_submission env sub lb raw y w)) as w' eqn:Ew.
  remember (snd (handle_submission env sub lb raw y w)) as r eqn:Er.
  clear Ew Er.
  inversion Hout; subst w' r; simpl; try congruence;
    (split; [intros H'; apply list_snoc_inj in H'; discriminate
            |intros H'; congruence])
    || (split; [intros _; assumption|reflexivity]).
Qed.

Lemma username_refused_witness :
  notices (fst (handle_submission Demo.demo_env
                  (mkSubmission "   " (Some "square") true) []
                  Demo.raw_images Demo.y_test Demo.empty_world))
  = notices Demo.empty_world ++ [MissingUsername].
Proof.
  apply (username_refused_iff_blank Demo.demo_env
           (mkSubmission "   " (Some "square") true) [] Demo.raw_images
           Demo.y_test Demo.empty_world "square"); reflexivity.
Defined.

(** *** One pass through the handler *)

(** X9. A pass without the button pressed changes nothing and shows nothing;
    a pass with the button pressed shows exactly one message. *)
Theorem handler_one_message_per_click env sub lb raw y w :
  let w' := fst (handle_submission env sub lb raw y w) in
  if submit sub
  then exists n, notices w' = notices w ++ [n]
  else w' = w /\ snd (handle_submission env sub lb raw y w) = Ok lb.
Proof.
  intros w'.
  pose proof (handle_submission_outcome env sub lb raw y w) as Hout.
  fold w' in Hout. clearbody w'.
  remember (snd (handle_submission env sub lb raw y w)) as r eqn:Er.
  clear Er.
  inversion Hout as
    [ Hs | Hs Hu | u Hs Hu Hn' | u e Hs Hu Hn' Hl
    | u m Hs Hu Hn' Hl Ha' | u m Hs Hu Hn' Hl Ha' Hnn
    | u m e Hs Hu Hn' Hl Ha' He
    | u m acc' Hs Hu Hn' Hl Ha' He lb'' ];
    subst w' r; rewrite Hs; simpl; eauto.
Qed.

(** X10. The table is only ever appended to: what the handler leaves in the
    leaderboard variable is the loaded table followed by at most one row,
    and by one row exactly when the message of success is shown. *)
Theorem handler_appends_only env sub lb raw y w :
  let w' := fst (handle_submission env sub lb raw y w) in
  exists rows,
    snd (handle_submission env sub lb raw y w) = Ok (lb ++ rows)
    /\ List.length rows <= 1
    /\ (rows <> [] <-> exists acc, notices w' = notices w ++ [Evaluated acc]).
Proof.
  intros w'.
  pose proof (handle_submission_outcome env sub lb raw y w) as Hout.
  fold w' in Hout. clearbody w'.
  remember (snd (handle_submission env sub lb raw y w)) as r eqn:Er.
  clear Er.
  inversion Hout as
    [ Hs | Hs Hu | u Hs Hu Hn' | u e Hs Hu Hn' Hl
    | u m Hs Hu Hn' Hl Ha' | u m Hs Hu Hn' Hl Ha' Hnn
    | u m e Hs Hu Hn' Hl Ha' He
    | u m acc' Hs Hu Hn' Hl Ha' He lb'' ];
    subst w' r; simpl.
  8:{ exists [new_row (username sub) acc' (strftime (now env))].
      repeat split; simpl; eauto; discriminate. }
  all: exists []; rewrite app_nil_r; repeat split; simpl; try lia;
    try congruence.
  all: intros [acc H].
  1: now apply list_snoc_neq in H.
  all: apply list_snoc_inj in H; discriminate.
Qed.

(** X11. What one pass does to the outside: [evaluate_model] is called at most
    once, [save_leaderboard] at most once and only after an evaluation, and
    a save happens exactly when the message of success is shown. *)
Theorem handler_saves_once_after_evaluating env sub lb raw y w :
  let w' := fst (handle_submission env sub lb raw y w) in
  evaluations w <= evaluations w' <= S (evaluations w)
  /\ saves w <= saves w' <= S (saves w)
  /\ (saves w' = S (saves w) -> evaluations w' = S (evaluations w))
  /\ (saves w' = S (saves w)
      <-> exists acc, notices w' = notices w ++ [Evaluated acc]).
Proof.
  intros w'.
  pose proof (handle_submission_outcome env sub lb raw y w) as Hout.
  fold w' in Hout. clearbody w'.
  remember (snd (handle_submission env sub lb raw y w)) as r eqn:Er.
  clear Er.
  inversion Hout as
    [ Hs | Hs Hu | u Hs Hu Hn' | u e Hs Hu Hn' Hl
    | u m Hs Hu Hn' Hl Ha' | u m Hs Hu Hn' Hl Ha' Hnn
    | u m e Hs Hu Hn' Hl Ha' He
    | u m acc' Hs Hu Hn' Hl Ha' He lb'' ];
    subst w' r; simpl.
  8:{ repeat split; eauto; lia. }
  all: repeat split; try lia.
  all: intros [acc H].
  1: now apply list_snoc_neq in H.
  all: apply list_snoc_inj in H; discriminate.
Qed.

(** X7. With no test image at all, no submission is ever recorded: the table,
    the leaderboard file and the count of saves stay as they were. *)
Theorem empty_test_set_records_nothing env sub lb y w :
  tmpname env <> LEADERBOARD_FILE ->
  let w' := fst (handle_submission env sub lb [] y w) in
  snd (handle_submission env sub lb [] y w) = Ok lb
  /\ saves w' = saves w
  /\ files w' !! LEADERBOARD_FILE = files w !! LEADERBOARD_FILE
  /\ forall acc, notices w' <> notices w ++ [Evaluated acc].
Proof.
  intros Htmp w'.
  pose proof (handle_submission_outcome env sub lb [] y w) as Hout.
  fold w' in Hout. clearbody w'.
  remember (snd (handle_submission env sub lb [] y w)) as r eqn:Er.
  clear Er.
  inversion Hout as
    [ Hs | Hs Hu | u Hs Hu Hn' | u e Hs Hu Hn' Hl
    | u m Hs Hu Hn' Hl Ha' | u m Hs Hu Hn' Hl Ha' Hnn
    | u m e Hs Hu Hn' Hl Ha' He
    | u m acc' Hs Hu Hn' Hl Ha' He lb'' ];
    subst w' r; simpl.
  8:{ discriminate He. }
  all: repeat split; trivial; try (now rewrite lookup_delete_ne).
  all: intros acc H.
  1: now apply list_snoc_neq in H.
  all: apply list_snoc_inj in H; discriminate.
Qed.

Lemma empty_test_set_witness :
  let sub := mkSubmission "alice" (Some "square") true in
  let w' := fst (handle_submission Demo.demo_env sub [Demo.bob_row] []
                   Demo.y_test Demo.empty_world) in
  snd (handle_submission Demo.demo_env sub [Demo.bob_row] [] Demo.y_test
         Demo.empty_world) = Ok [Demo.bob_row]
  /\ saves w' = saves Demo.empty_world
  /\ files w' !! LEADERBOARD_FILE = files Demo.empty_world !! LEADERBOARD_FILE
  /\ forall acc, notices w' <> notices Demo.empty_world ++ [Evaluated acc].
Proof.
  intros sub.
  apply (empty_test_set_records_nothing Demo.demo_env sub [Demo.bob_row]
           Demo.y_test Demo.empty_world).
  vm_compute. discriminate.
Defined.

(** *** More on the leaderboard store *)










(** A carriage return alone is written outside quotes, and the reader ends
    the record at it: the row of the user a<CR>b is read as two records. *)
Example bare_CR_ends_the_record :
  let r := mkRow (Str (String "a" (String Csv.CR "b"))) (Num 5000)
             (Str Demo.T1) in
  Csv.tokenize Csv.START_RECORD [] [] (Csv.to_csv [r])
  = Some [COLUMNS; ["a"]; ["b"; "50.0"; Demo.T1]].
Proof. reflexivity. Qed.

(** *** More on a run of the script *)



(** *** More on the displayed table *)

(** X17. The page shows "No submissions yet." exactly for the empty table;
    otherwise it shows every row once, in descending order of the texts of
    the Accuracy column. *)
Theorem displayed_table_is_sorted_rearrangement lb :
  match render lb with
  | NoSubmissionsYet => lb = []
  | Table rows =>
      lb <> []
      /\ Permutation (leaderboard_display lb) rows
      /\ Sorted key_ge rows
  end.
Proof.
  destruct lb as [|r lb]; [reflexivity|].
  unfold render. repeat split.
  - discriminate.
  - apply sort_values_desc_perm.
  - apply sort_values_desc_Sorted.
Qed.

Lemma keys_ascend_chain lo k :
  adjacent_keys_ascend lo k = true ->
  forall d i,
    i + d < k ->
    String.compare (accuracy_key (lo + Z.of_nat i))
      (accuracy_key (lo + Z.of_nat (i + d) + 1)) = Lt.
Proof.
  intros Hadj.
  assert (Hstep : forall i, i < k ->
            String.compare (accuracy_key (lo + Z.of_nat i))
              (accuracy_key (lo + Z.of_nat i + 1)) = Lt).
  { intros i Hi. unfold adjacent_keys_ascend in Hadj.
    rewrite forallb_forall in Hadj.
    specialize (Hadj i). rewrite in_seq in Hadj.
    destruct (String.compare _ _); try reflexivity;
      (assert (false = true) by (apply Hadj; lia); discriminate). }
  induction d as [|d IH]; intros i Hi.
  - rewrite Nat.add_0_r. apply Hstep. lia.
  - eapply string_compare_lt_trans.
    + apply (IH i). lia.
    + replace (lo + Z.of_nat (i + d) + 1)%Z with (lo + Z.of_nat (i + S d))%Z
        by lia.
      apply Hstep. lia.
Qed.

(** Where the keys of neighbours ascend, the order of the keys is the order
    of the numbers. *)
Lemma key_order_is_number_order lo k h1 h2 :
  adjacent_keys_ascend lo k = true ->
  (lo <= h1 <= lo + Z.of_nat k)%Z -> (lo <= h2 <= lo + Z.of_nat k)%Z ->
  String.leb (accuracy_key h1) (accuracy_key h2) = (h1 <=? h2)%Z.
Proof.
  intros Hadj H1 H2.
  assert (Hlt : forall a b, (lo <= a)%Z -> (a < b)%Z ->
                  (b <= lo + Z.of_nat k)%Z ->
                  String.compare (accuracy_key a) (accuracy_key b) = Lt).
  { intros a b Ha Hab Hb.
    pose proof (keys_ascend_chain lo k Hadj
                  (Z.to_nat (b - a - 1)) (Z.to_nat (a - lo))) as Hc.
    replace (lo + Z.of_nat (Z.to_nat (a - lo)))%Z with a in Hc by lia.
    replace (lo + Z.of_nat (Z.to_nat (a - lo) + Z.to_nat (b - a - 1)) + 1)%Z
      with b in Hc by lia.
    apply Hc. lia. }
  unfold String.leb.
  destruct (Z.compare_spec h1 h2) as [E|E|E].
  - subst h2. rewrite string_compare_refl. symmetry. apply Z.leb_le. lia.
  - rewrite (Hlt h1 h2) by lia. symmetry. apply Z.leb_le. lia.
  - rewrite String.compare_antisym, (Hlt h2 h1) by lia. simpl.
    symmetry. apply Z.leb_gt. lia.
Qed.

(** From 0.0 to 9.99 and from 10.0 to 99.99 the keys of neighbours
    ascend. *)
Lemma one_digit_keys_ascend :
  adjacent_keys_ascend 0 (Z.to_nat 999) = true.
Proof. vm_compute. reflexivity. Qed.

Lemma two_digit_keys_ascend :
  adjacent_keys_ascend 1000 (Z.to_nat 8999) = true.
Proof. vm_compute. reflexivity. Qed.

(** Within a band of ascending keys, rows in descending order of their keys
    are in descending order of their accuracies. *)
Lemma sorted_keys_sorted_numbers lo k ordered :
  adjacent_keys_ascend lo k = true ->
  accuracies_within lo (lo + Z.of_nat k + 1) ordered ->
  Sorted key_ge (leaderboard_display ordered) ->
  Sorted accuracy_ge ordered.
Proof.
  intros Hadj Hall.
  induction Hall as [|x l (hx & Ex & Hx) Hl IH]; intros Hs; [constructor|].
  cbn [leaderboard_display map] in Hs. apply Sorted_inv in Hs as [Hs Hhd].
  constructor; [apply IH; exact Hs|].
  destruct Hl as [|r l (hr & Er & Hr) Hl]; [constructor|].
  constructor. cbn [map] in Hhd. apply HdRel_inv in Hhd.
  unfold key_ge in Hhd. cbn [dAccuracy] in Hhd. rewrite Ex, Er in Hhd.
  change (astype_str (Num hr) +:+ " %") with (accuracy_key hr) in Hhd.
  change (astype_str (Num hx) +:+ " %") with (accuracy_key hx) in Hhd.
  rewrite (key_order_is_number_order lo k hr hx Hadj) in Hhd by lia.
  unfold accuracy_ge, hundredths. rewrite Ex, Er. now apply Z.leb_le.
Qed.

(** X18. When all accuracies are written with the same number of digits before
    the point (all from 0.0 to 9.99, or all from 10.0 to 99.99), a table
    sorted on the texts of the Accuracy column is sorted on the accuracies
    as numbers, whatever order the sort gives to rows of equal text; so is
    the table the page shows. *)
Theorem same_width_accuracies_shown_in_number_order lb :
  accuracies_within 0 1000 lb \/ accuracies_within 1000 10000 lb ->
  (forall rows,
     Permutation (leaderboard_display lb) rows ->
     Sorted key_ge rows ->
     shown_in_number_order lb rows)
  /\ match render lb with
     | NoSubmissionsYet => lb = []
     | Table rows => shown_in_number_order lb rows
     end.
Proof.
  intros Hband.
  assert (Hany : forall rows,
             Permutation (leaderboard_display lb) rows ->
             Sorted key_ge rows ->
             shown_in_number_order lb rows).
  { intros rows Hperm Hsorted. symmetry in Hperm.
    apply Permutation_map_inv in Hperm as (ordered & -> & Hp).
    exists ordered. repeat split; trivial.
    destruct Hband as [H|H].
    - apply (sorted_keys_sorted_numbers 0 (Z.to_nat 999));
        [exact one_digit_keys_ascend| |exact Hsorted].
      unfold accuracies_within. rewrite <- Hp. exact H.
    - apply (sorted_keys_sorted_numbers 1000 (Z.to_nat 8999));
        [exact two_digit_keys_ascend| |exact Hsorted].
      unfold accuracies_within. rewrite <- Hp. exact H. }
  split; [exact Hany|].
  destruct lb as [|r lb]; [reflexivity|]. unfold render. apply Hany.
  - apply sort_values_desc_perm.
  - apply sort_values_desc_Sorted.
Qed.

Lemma same_width_witness :
  let lb := [mkRow (Str "a") (Num 3333) (Str Demo.T1); Demo.bob_row;
             mkRow (Str "c") (Num 3333) (Str Demo.T1)] in
  (forall rows,
     Permutation (leaderboard_display lb) rows ->
     Sorted key_ge rows ->
     shown_in_number_order lb rows)
  /\ match render lb with
     | NoSubmissionsYet => lb = []
     | Table rows => shown_in_number_order lb rows
     end.
Proof.
  intros lb.
  apply (same_width_accuracies_shown_in_number_order lb).
  right. repeat constructor; eexists; (split; [reflexivity|lia]).
Defined.
